(** * Chez-Vous: the request controller and the report renderer of the
    [Home] page, and the [analyzeAddress] transport call.

    Sources:
    - [src/frontend/src/services/api.js]: [analyzeAddress];
    - [src/unnamed/part_000]: four successive versions of the [Home]
      component.  Three of them call the analysis service and are
      modelled here:
      - [Themed Cards], lines 1-242 (report drawn as white cards,
        reset button);
      - [Plain], lines 243-380 (form always shown, controls disabled
        while loading, no reset button);
      - [Themed Icons], lines 433-693 (landmark icons, reset button).
      The version at lines 381-432 only arms a timer and never calls the
      service; it is not modelled.

    JavaScript is embedded shallowly: values of the language are a
    datatype, an expression that may throw returns a [completion], and
    the component state of React is a record that the handlers
    transform. *)

From Stdlib Require Import ZArith NArith List String Ascii DecimalString Bool Lia.
From stdpp Require Import base option list gmap.
Import ListNotations.

Set Warnings "-register-all".

(* ================================================================== *)
(** * JavaScript values *)
(* ================================================================== *)

Module JS.

(** A string is its sequence of UTF-16 code units. *)
Definition jsstring : Type := list N.

(** An ASCII literal of the source, as code units. *)
Definition js (s : string) : jsstring :=
  List.map N_of_ascii (list_ascii_of_string s).
Arguments js s%_string : simpl never.

(** The values that reach the page: what [JSON.parse] builds from a
    response body, the strings typed by the user, and [undefined].
    - [VNum n] is the number [n]; only integers are modelled, and a
      number stands for itself up to the safe-integer bound [2^53 - 1]
      (beyond it JavaScript prints an exponent);
    - [VObj props] lists the own properties in the order in which
      JavaScript enumerates them; an object has every key once, and on a
      list with a repeated key the first binding is the one read. *)
Inductive value : Type :=
| VUndefined
| VNull
| VBool (b : bool)
| VNum (n : Z)
| VStr (s : jsstring)
| VArr (elems : list value)
| VObj (props : list (jsstring * value)).

(** What a [throw] carries: the two runtime errors the page can raise,
    or a value thrown by the program itself. *)
Inductive exn : Type :=
| TypeError                 (* reading a property of null/undefined, calling a non-function *)
| InvalidChild              (* React: "Objects are not valid as a React child" *)
| Thrown (v : value).

(** The outcome of evaluating an expression. *)
Inductive completion (A : Type) : Type :=
| Return (a : A)
| Throw (e : exn).
Arguments Return {A} a.
Arguments Throw {A} e.

#[export] Instance completion_ret : MRet completion := @Return.
#[export] Instance completion_bind : MBind completion :=
  fun A B f c => match c with Return a => f a | Throw e => Throw e end.
#[export] Instance completion_fmap : FMap completion :=
  fun A B f c => match c with Return a => Return (f a) | Throw e => Throw e end.

Section Traverse.
Context {A B : Type} (f : A -> completion B).
(** [l.map(f)] on an array, stopping at the first element on which
    [f] throws. *)
Fixpoint each (l : list A) : completion (list B) :=
  match l with
  | [] => Return []
  | x :: rest => y ← f x; ys ← each rest; mret (y :: ys)
  end.
End Traverse.

(** ToBoolean. *)
Definition truthy (v : value) : bool :=
  match v with
  | VUndefined | VNull => false
  | VBool b => b
  | VNum n => negb (n =? 0)%Z
  | VStr [] => false
  | VStr (_ :: _) => true
  | VArr _ | VObj _ => true
  end.

(** [a || b]. *)
Definition or_else (a b : value) : value := if truthy a then a else b.

(** Number::toString on an integer. *)
Definition dec (n : Z) : jsstring := js (NilZero.string_of_int (Z.to_int n)).
Arguments dec n : simpl never.

(** Own property lookup. *)
Fixpoint own (k : jsstring) (props : list (jsstring * value)) : option value :=
  match props with
  | [] => None
  | (k', v) :: rest => if decide (k = k') then Some v else own k rest
  end.

Definition has_own (k : jsstring) (props : list (jsstring * value)) : bool :=
  match own k props with Some _ => true | None => false end.

(** [v.p], for the property names [p] that the pages read from service
    data: [geo_data], [arrondissement], [full_address], [analysis],
    [overview], [description], [three_word_summary], [what_locals_say],
    [ratings], [score], [transport], [landmark_travel_times],
    [landmark], [time], [nearby_stations], [name], [transport_type],
    [lines], [walk_time_minutes], [error].  None of them is defined on
    the prototype of objects, arrays, strings, numbers or booleans, so a
    miss on an object and any read on a primitive or an array give
    [undefined]; [length] has its own function below. *)
Definition get (v : value) (p : string) : completion value :=
  match v with
  | VUndefined | VNull => Throw TypeError
  | VObj props => Return (default VUndefined (own (js p) props))
  | VBool _ | VNum _ | VStr _ | VArr _ => Return VUndefined
  end.
Arguments get v p%_string.

(** [v?.p]. *)
Definition get_opt (v : value) (p : string) : completion value :=
  match v with
  | VUndefined | VNull => Return VUndefined
  | _ => get v p
  end.
Arguments get_opt v p%_string.

(** [v.length]. *)
Definition get_length (v : value) : completion value :=
  match v with
  | VUndefined | VNull => Throw TypeError
  | VArr l => Return (VNum (Z.of_nat (length l)))
  | VStr s => Return (VNum (Z.of_nat (length s)))
  | VObj props => Return (default VUndefined (own (js "length") props))
  | VBool _ | VNum _ => Return VUndefined
  end.

Section Join.
Variable str : value -> completion jsstring.
Variable sep : jsstring.

(** Array.prototype.join: [undefined] and [null] elements contribute
    the empty string. *)
Definition join_elem (v : value) : completion jsstring :=
  match v with
  | VUndefined | VNull => Return []
  | _ => str v
  end.

Fixpoint join_with (l : list value) : completion jsstring :=
  match l with
  | [] => Return []
  | [x] => join_elem x
  | x :: rest =>
      sx ← join_elem x; sr ← join_with rest; mret (sx ++ sep ++ sr)
  end.
End Join.

(** ToString, as applied by template literals, by [join] and by a
    computed property key.  An array prints its elements joined by
    commas.  An object takes [toString] from its prototype and prints as
    [[object Object]]; when the data itself has an own [toString]
    property, which is never callable, the conversion finds no usable
    method and throws. *)
Fixpoint to_string (v : value) : completion jsstring :=
  match v with
  | VUndefined => Return (js "undefined")
  | VNull => Return (js "null")
  | VBool true => Return (js "true")
  | VBool false => Return (js "false")
  | VNum n => Return (dec n)
  | VStr s => Return s
  | VArr l => join_with to_string (js ",") l
  | VObj props =>
      if has_own (js "toString") props then Throw TypeError
      else Return (js "[object Object]")
  end.

(** [l.join(sep)]. *)
Definition join (sep : jsstring) (l : list value) : completion jsstring :=
  join_with to_string sep l.

(** WhiteSpace and LineTerminator code points of ECMAScript: the code
    units that [trim] strips. *)
Definition is_white_space (c : N) : bool :=
  match c with
  | 9 | 10 | 11 | 12 | 13 | 32 | 160 | 5760 => true
  | 8232 | 8233 | 8239 | 8287 | 12288 | 65279 => true
  | _ => (8192 <=? c)%N && (c <=? 8202)%N
  end%N.

Fixpoint drop_while {A} (f : A -> bool) (l : list A) : list A :=
  match l with
  | [] => []
  | x :: rest => if f x then drop_while f rest else l
  end.

(** String.prototype.trim. *)
Definition trim (s : jsstring) : jsstring :=
  rev (drop_while is_white_space (rev (drop_while is_white_space s))).

(** [s.replace(a, b)] with string arguments: the first occurrence only. *)
Fixpoint starts_with (pat s : jsstring) : option jsstring :=
  match pat, s with
  | [], _ => Some s
  | c :: pat', d :: s' => if decide (c = d) then starts_with pat' s' else None
  | _ :: _, [] => None
  end.

Fixpoint replace (pat by_ : jsstring) (s : jsstring) : jsstring :=
  match starts_with pat s with
  | Some rest => by_ ++ rest
  | None => match s with [] => [] | c :: s' => c :: replace pat by_ s' end
  end.

End JS.
Export JS.

Ltac unfold_completion :=
  unfold mbind, mret, fmap, completion_bind, completion_ret, completion_fmap in *.

(* ================================================================== *)
(** * The transport call: [src/frontend/src/services/api.js] *)
(* ================================================================== *)

Module Api.

(** How [api.post] settles.  axios fulfils with the response of a 2xx
    status and rejects otherwise; the rejection carries a [response]
    when the service answered with another status, and none on a
    network failure or when the 60 s [timeout] expires.  Only
    [response.data] is read. *)
Inductive settlement : Type :=
| Fulfilled (data : value)
| Rejected (response : option value).

(** A request as handed to axios: the path and the JSON body. *)
Record request : Type := { path : jsstring; body : value }.

(** [api.post('/api/analyze', { address })] (line 15). *)
Definition analyze_request (address : jsstring) : request :=
  {| path := js "/api/analyze";
     body := VObj [(js "address", VStr address)] |}.

(** [{ error: 'Failed to analyze address' }] (line 18). *)
Definition fallback_error : value :=
  VObj [(js "error", VStr (js "Failed to analyze address"))].

(** [error.response?.data]. *)
Definition response_data (response : option value) : value :=
  match response with
  | Some data => data
  | None => VUndefined
  end.

(** [analyzeAddress] (lines 13-20), once the request has settled. *)
Definition analyzeAddress (o : settlement) : completion value :=
  match o with
  | Fulfilled data => Return data
  | Rejected response =>
      Throw (Thrown (or_else (response_data response) fallback_error))
  end.

End Api.
Export Api.

(* ================================================================== *)
(** * The request controller: state and handlers of [Home] *)
(* ================================================================== *)

Module Controller.

(** The four [useState] slots (lines 5-8; the same at 247-250 and
    437-440). *)
Record session : Type := {
  address : jsstring;
  loading : bool;
  result : value;
  error : value
}.

(** The page and its surroundings: the requests awaiting settlement,
    every request sent so far (latest first), and the rejections of
    [handleSubmit] that nothing caught. *)
Record world : Type := {
  ui : session;
  in_flight : nat;
  posted : list request;
  unhandled : list exn
}.

Definition initial_session : session :=
  {| address := []; loading := false; result := VNull; error := VNull |}.

Definition initial : world :=
  {| ui := initial_session; in_flight := 0; posted := []; unhandled := [] |}.

(** [!address.trim()]. *)
Definition blank (a : jsstring) : bool := negb (truthy (VStr (trim a))).

(** [handleSubmit] up to its [await] (lines 10-19; the same text at
    252-261 and 442-451): the guard, the three setters and the call. *)
Definition handleSubmit (w : world) : world :=
  let s := ui w in
  if blank (address s) then w
  else
    {| ui := {| address := address s; loading := true;
                result := VNull; error := VNull |};
       in_flight := S (in_flight w);
       posted := analyze_request (address s) :: posted w;
       unhandled := unhandled w |}.

(** [err.error] in the [catch] clause.  An error object of the runtime
    has no such property. *)
Definition thrown_error (err : exn) : completion value :=
  match err with
  | Thrown v => get v "error"
  | TypeError | InvalidChild => Return VUndefined
  end.

(** The rest of [handleSubmit] (lines 19-25; the same text at 261-267
    and 451-457), run when the request settles: [setResult] or
    [setError], then [setLoading(false)] in the [finally] clause.  The
    second component is the exception that escapes the handler, if
    any. *)
Definition handleSubmit_settled (o : settlement) (s : session)
  : session * option exn :=
  match analyzeAddress o with
  | Return data =>
      ({| address := address s; loading := false;
          result := data; error := error s |}, None)
  | Throw err =>
      match thrown_error err with
      | Return m =>
          ({| address := address s; loading := false; result := result s;
              error := or_else m (VStr (js "Failed to analyze address")) |},
           None)
      | Throw e =>
          ({| address := address s; loading := false;
              result := result s; error := error s |}, Some e)
      end
  end.

(** [onClick] of "Search Another Address" (lines 225-229, 676-680). *)
Definition handleReset (s : session) : session :=
  {| address := []; loading := loading s; result := VNull; error := VNull |}.

(** [onChange] of the input (lines 65, 281, 497). *)
Definition handleChange (text : jsstring) (s : session) : session :=
  {| address := text; loading := loading s;
     result := result s; error := error s |}.

(** The two versions that draw the full report differ in markup only;
    their state, handlers and controls are the same. *)
Inductive theme : Type := Cards | Icons.
Inductive variant : Type := Plain | Themed (t : theme).

(** The form is mounted: always in [Plain]; in [Cards] and [Icons] only
    under [!result], in the branch of [loading ? ... : ...] that is not
    the spinner (lines 41-60, 473-492). *)
Definition form_shown (v : variant) (s : session) : bool :=
  match v with
  | Plain => true
  | Themed _ => negb (truthy (result s)) && negb (loading s)
  end.

(** The input accepts typing: [disabled={loading}] in [Plain]
    (line 284). *)
Definition input_enabled (v : variant) (s : session) : bool :=
  form_shown v s &&
  match v with
  | Plain => negb (loading s)
  | Themed _ => true
  end.

(** The submit button can be activated:
    [disabled={loading || !address.trim()}] in [Plain] (line 290). *)
Definition button_enabled (v : variant) (s : session) : bool :=
  form_shown v s &&
  match v with
  | Plain => negb (loading s || blank (address s))
  | Themed _ => true
  end.

(** [onClick] of the submit button in [Cards] and [Icons] (lines 73-77,
    505-509): [preventDefault] on a blank address, so that no submit
    event follows. *)
Definition click_submits (v : variant) (s : session) : bool :=
  match v with
  | Plain => true
  | Themed _ => negb (blank (address s))
  end.

(** "Search Another Address" is rendered inside [{result && ...}];
    [Plain] has no such button. *)
Definition reset_shown (v : variant) (s : session) : bool :=
  match v with
  | Plain => false
  | Themed _ => truthy (result s)
  end.

(** What can happen to a page: the user types, activates the submit
    button (by a click or by Enter in the input), clicks the reset
    button, or an outstanding request settles. *)
Inductive event : Type :=
| Change (text : jsstring)
| Submit
| Reset
| Settle (o : settlement).

Definition with_ui (s : session) (w : world) : world :=
  {| ui := s; in_flight := in_flight w;
     posted := posted w; unhandled := unhandled w |}.

(** One event.  A control that is not mounted or is disabled delivers
    nothing to its handler.  An event is handled as a whole: React
    renders the page again before the browser delivers the next click
    or key, and the part of [handleSubmit] after its [await] runs to
    its end without interruption.

    The page is taken to have rendered.  A render that throws (a
    property read on [null], an object placed as a child) leaves React
    without a tree, and such a page accepts no click or key at all:
    fewer events than [dispatch] delivers, so what holds of every [run]
    holds of it. *)
Definition dispatch (v : variant) (e : event) (w : world) : world :=
  match e with
  | Change text =>
      if input_enabled v (ui w) then with_ui (handleChange text (ui w)) w
      else w
  | Submit =>
      if button_enabled v (ui w) && click_submits v (ui w)
      then handleSubmit w else w
  | Reset =>
      if reset_shown v (ui w) then with_ui (handleReset (ui w)) w else w
  | Settle o =>
      match in_flight w with
      | O => w
      | S n =>
          let '(s, escaped) := handleSubmit_settled o (ui w) in
          {| ui := s; in_flight := n; posted := posted w;
             unhandled := match escaped with
                          | Some e => e :: unhandled w
                          | None => unhandled w
                          end |}
      end
  end.

(** A session: the events in the order in which they happen, from the
    first render. *)
Definition run (v : variant) (events : list event) : world :=
  fold_left (fun w e => dispatch v e w) events initial.

(** The request state of the specification, read off the slots the way
    the view reads them: the spinner under [loading], the report under
    [result &&], the banner under [error &&]. *)
Inductive request_state : Type :=
| Idle
| Pending (a : jsstring)
| Succeeded (r : value)
| Failed (message : value).

Definition phase (s : session) : request_state :=
  if loading s then Pending (address s)
  else if truthy (result s) then Succeeded (result s)
  else if truthy (error s) then Failed (error s)
  else Idle.

(** What holds of a page after any sequence of events: a request is
    outstanding exactly while [loading] is set; while it is, result and
    error are both clear; never are both set; a stored error is a
    message (truthy); no rejection has escaped. *)
Record consistent (w : world) : Prop := {
  flight_is_loading : in_flight w = if loading (ui w) then 1%nat else 0%nat;
  loading_is_clear :
    loading (ui w) = true -> result (ui w) = VNull /\ error (ui w) = VNull;
  one_outcome : result (ui w) = VNull \/ error (ui w) = VNull;
  error_is_message : error (ui w) = VNull \/ truthy (error (ui w)) = true;
  nothing_escaped : unhandled w = []
}.

End Controller.
Export Controller.

(* ================================================================== *)
(** * The report renderer: the JSX of [Home] under [{result && ...}] *)
(* ================================================================== *)

Module Render.

(** Class names, keys and event handlers are not kept: an element is
    its tag, its children and, for an image, its source and alternative
    text. *)
Inductive tag : Type := Div | H2 | H3 | P | Span | Button.

(** What the component function returns: React elements, with the
    values written between braces still to be rendered. *)
Inductive element : Type :=
| Lit (s : jsstring)                       (* JSX text *)
| Hole (v : value)                         (* a value between braces *)
| Image (src : jsstring) (alt : value)
| Elem (t : tag) (kids : list element).

(** What React puts in the document. *)
Inductive node : Type :=
| Text (s : jsstring)
| Img (src : jsstring) (alt : option jsstring)
| El (t : tag) (kids : list node).

(** A string as a child: no text node for the empty string. *)
Definition as_text (s : jsstring) : list node :=
  match s with
  | [] => []
  | _ :: _ => [Text s]
  end.

(** A value as a child: [null], [undefined], booleans and the empty
    string render nothing, numbers and strings render as text, an array
    renders its elements, an object is refused. *)
Fixpoint child (v : value) : completion (list node) :=
  match v with
  | VUndefined | VNull | VBool _ => Return []
  | VNum n => Return [Text (dec n)]
  | VStr s => Return (as_text s)
  | VArr l => ks ← each child l; mret (concat ks)
  | VObj _ => Throw InvalidChild
  end.

(** A value as an attribute: omitted for [null], [undefined] and
    booleans, converted to a string otherwise. *)
Definition attr (v : value) : completion (option jsstring) :=
  match v with
  | VUndefined | VNull | VBool _ => Return None
  | _ => Some <$> to_string v
  end.

Fixpoint mount (e : element) : completion (list node) :=
  match e with
  | Lit s => Return [Text s]
  | Hole v => child v
  | Image src alt => a ← attr alt; mret [Img src a]
  | Elem t kids => ks ← each mount kids; mret [El t (concat ks)]
  end.

Definition mount_all (es : list element) : completion (list node) :=
  ks ← each mount es; mret (concat ks).

(** The text a reader sees. *)
Fixpoint text_of (n : node) : jsstring :=
  match n with
  | Text s => s
  | Img _ _ => []
  | El _ kids => concat (List.map text_of kids)
  end.

(** [{a && jsx}]: the value [a] itself is the child when it is falsy. *)
Definition and_then (a : value) (jsx : completion (list element))
  : completion (list element) :=
  if truthy a then jsx else Return [Hole a].

Definition heading (t : tag) (s : string) : element := Elem t [Lit (js s)].
Arguments heading t s%_string.

(** ** Arrondissement, address and overview (lines 104-134, 536-564) *)

(** [{result.geo_data?.arrondissement && <img ... />}]; both template
    literals print the same value. *)
Definition arrondissement_asset (result : value) : completion (list element) :=
  geo ← get result "geo_data";
  arr ← get_opt geo "arrondissement";
  and_then arr
    (s ← to_string arr;
     mret [Image (js "/arr_numbers/" ++ s ++ js ".png")
                 (VStr (s ++ js "e arrondissement"))]).

Definition full_address_text (result : value) : completion element :=
  geo ← get result "geo_data";
  a ← get_opt geo "full_address";
  mret (Elem P [Hole a]).

Definition overview_block (v : theme) (result : value)
  : completion (list element) :=
  an ← get result "analysis";
  and_then an
    (ov ← get an "overview";
     d ← get_opt ov "description";
     t ← get_opt ov "three_word_summary";
     mret [Elem Div [heading H3 "Neighborhood Character";
                     match v with
                     | Cards => Elem Div [Elem P [Hole d]]
                     | Icons => Elem P [Hole d]
                     end;
                     Elem P [Hole t]]]).

Definition location_block (v : theme) (result : value)
  : completion (list element) :=
  asset ← arrondissement_asset result;
  addr ← full_address_text result;
  ov ← overview_block v result;
  mret [Elem Div
          [Elem Div (heading H2 "Arrondissement" :: asset);
           Elem Div
             (Elem Div [match v with
                        | Cards => heading P "Full address:"
                        | Icons => heading H3 "Full address"
                        end; addr] :: ov)]].

(** ** Word of mouth (lines 136-160, 569-584) *)

(** [Array.isArray(w) ? w.map(...) : <p>{w}</p>]. *)
Definition paragraphs (w : value) : list element :=
  match w with
  | VArr l => List.map (fun paragraph => Elem P [Hole paragraph]) l
  | _ => [Elem P [Hole w]]
  end.

Definition word_of_mouth_section (v : theme) (w : value) : list element :=
  match v with
  | Cards =>
      [Elem Div [heading H3 "Word of Mouth";
                 Elem Div [Elem Div (paragraphs w)]]]
  | Icons =>
      [Elem Div [heading H3 "Word of Mouth";
                 heading P "What Reddit is saying";
                 Elem Div (paragraphs w)]]
  end.

(** In [Cards] the section sits in a [div] of its own, under
    [{result.analysis && (<>{what_locals_say && ...}</>)}]; in [Icons]
    it stands under
    [{result.analysis && result.analysis.what_locals_say && ...}]. *)
Definition word_of_mouth (v : theme) (result : value)
  : completion (list element) :=
  an ← get result "analysis";
  inner ← and_then an
            (w ← get an "what_locals_say";
             and_then w (mret (word_of_mouth_section v w)));
  mret match v with
       | Cards => [Elem Div inner]
       | Icons => inner
       end.

(** ** Ratings (lines 162-178, 589-605) *)

Definition indexed {A} (f : A -> value) (l : list A) : list (jsstring * value) :=
  imap (fun i x => (dec (Z.of_nat i), f x)) l.

(** [Object.entries(v)]: the own enumerable properties, which for an
    array and for a string are the indices. *)
Definition entries (v : value) : completion (list (jsstring * value)) :=
  match v with
  | VUndefined | VNull => Throw TypeError
  | VObj props => Return props
  | VArr l => Return (indexed id l)
  | VStr s => Return (indexed (fun c => VStr [c]) s)
  | VBool _ | VNum _ => Return []
  end.

Definition rating_entry (kv : jsstring * value) : completion element :=
  let '(key, val) := kv in
  sc ← get val "score";
  s ← to_string sc;
  mret (Elem Div [Elem P [Hole (VStr (replace (js "_") (js " ") key))];
                  Image (js "/" ++ s ++ js "_5.png")
                        (VStr (s ++ js " out of 5"))]).

(** [{result.analysis.ratings && Object.entries(...).map(...)}]. *)
Definition rating_entries (ratings : value) : completion (list element) :=
  and_then ratings (kvs ← entries ratings; each rating_entry kvs).

Definition ratings_block (result : value) : completion (list element) :=
  an ← get result "analysis";
  and_then an
    (r ← get an "ratings";
     grid ← rating_entries r;
     mret [Elem Div [Elem Div grid]]).

(** ** Transport (lines 180-221, 610-672) *)

(** Two conversions of the language that the pages can reach on
    unusual data are left to the engine:
    - [numeral_positive s]: whether the number that the string [s]
      converts to is greater than zero (reached by [x.length > 0] when
      [x] is an object of the data with a [length] property of its
      own);
    - [builtin_text k]: the text that the member [k] of
      [Object.prototype] prints as (reached when a landmark is named
      like one of them). *)
Record engine : Type := {
  numeral_positive : jsstring -> bool;
  builtin_text : jsstring -> jsstring
}.

(** The names that every object inherits from [Object.prototype]. *)
Definition object_prototype_members : list jsstring :=
  [js "constructor"; js "hasOwnProperty"; js "isPrototypeOf";
   js "propertyIsEnumerable"; js "toLocaleString"; js "toString";
   js "valueOf"; js "__proto__"; js "__defineGetter__";
   js "__defineSetter__"; js "__lookupGetter__"; js "__lookupSetter__"].

(** [iconMap] (lines 620-627). *)
Definition iconMap : gmap (list N) (list N) :=
  list_to_map
    [(js "Sacr" ++ [233%N] ++ js "-C" ++ [339%N] ++ js "ur", js "sacre");
     (js "Notre-Dame", js "notre");
     (js "Eiffel Tower", js "eiffel");
     (js "Arc de Triomphe", js "arc");
     (js "Louvre", js "louvre");
     (js "Champs-" ++ [201%N] ++ js "lys" ++ [233%N] ++ js "es", js "champs")].

Section Engine.
Variable E : engine.

(** [v > 0]. *)
Definition gt_zero (v : value) : completion bool :=
  match v with
  | VNum n => Return (0 <? n)%Z
  | VBool b => Return b
  | VUndefined | VNull => Return false
  | VStr s => Return (numeral_positive E s)
  | VArr _ => s ← to_string v; mret (numeral_positive E s)
  | VObj props =>
      if has_own (js "toString") props then Throw TypeError
      else Return false
  end.

(** [x && x.length > 0]: the value that decides whether the JSX to
    its right is rendered. *)
Definition non_empty (x : value) : completion value :=
  if truthy x then
    len ← get_length x; b ← gt_zero len; mret (VBool b)
  else Return x.

(** [`${iconMap[key]}`]. *)
Definition icon_text (key : jsstring) : jsstring :=
  match iconMap !! key with
  | Some icon => icon
  | None =>
      if bool_decide (key ∈ object_prototype_members)
      then builtin_text E key
      else js "undefined"
  end.

Definition landmark_entry (v : theme) (landmark : value)
  : completion element :=
  match v with
  | Cards =>
      n ← get landmark "landmark";
      t ← get landmark "time";
      mret (Elem Div [Elem Span [Hole n]; Elem Span [Hole t]])
  | Icons =>
      n ← get landmark "landmark";
      key ← to_string n;
      t ← get landmark "time";
      mret (Elem Div
              [Elem P [Hole n];
               Image (js "/landmarks/" ++ icon_text key ++ js ".png") n;
               Elem P [Hole t]])
  end.

(** [x.map(...)] on a value that is not [null] or [undefined]. *)
Definition map_landmarks (v : theme) (x : value)
  : completion (list element) :=
  match x with
  | VArr l => each (landmark_entry v) l
  | _ => Throw TypeError
  end.

Definition landmarks_block (v : theme) (tr : value)
  : completion (list element) :=
  lt ← get tr "landmark_travel_times";
  match v with
  | Cards =>
      (* the heading is unconditional; lt?.map(...) *)
      grid ← match lt with
             | VUndefined | VNull => Return [Hole VUndefined]
             | _ => map_landmarks v lt
             end;
      mret [Elem Div [heading H3 "Travel Times to Landmarks";
                      Elem Div grid]]
  | Icons =>
      and_then lt
        (grid ← map_landmarks v lt;
         mret [Elem Div [heading H3 "Travel Times to Landmarks";
                         heading P "Public transport from your address";
                         Elem Div grid]])
  end.

(** The JSX text in front of the lines: a space, a bullet (U+2022) and
    " Lines: ". *)
Definition lines_prefix : jsstring := (32 :: 8226 :: js " Lines: ")%N.

(** [{station.lines && station.lines.length > 0 && <span>...</span>}]. *)
Definition lines_label (station : value) : completion (list element) :=
  ls ← get station "lines";
  shown ← non_empty ls;
  and_then shown
    match ls with
    | VArr l =>
        s ← join (js ", ") l;
        mret [Elem Span [Lit lines_prefix; Hole (VStr s)]]
    | _ => Throw TypeError
    end.

Definition station_entry (v : theme) (station : value)
  : completion element :=
  n ← get station "name";
  t ← get station "transport_type";
  label ← lines_label station;
  w ← get station "walk_time_minutes";
  let who := Elem Div [Elem P [Hole n]; Elem P (Hole t :: label)] in
  let walk := Elem Span [Hole w; Lit (js " min walk")] in
  mret match v with
       | Cards => Elem Div [Elem Div [who; walk]]
       | Icons => Elem Div [who; walk]
       end.

(** [x.slice(0, 5).map(...)]: an array gives its first five elements;
    a string has [slice] but no [map], anything else has no
    [slice]. *)
Definition map_stations (v : theme) (x : value)
  : completion (list element) :=
  match x with
  | VArr l => each (station_entry v) (take 5 l)
  | _ => Throw TypeError
  end.

Definition stations_section (v : theme) (rows : list element)
  : list element :=
  [Elem Div
     (heading H3 "Nearby Stations" ::
      match v with
      | Cards => [Elem Div rows]
      | Icons => [heading P "Within walking distance"; Elem Div rows]
      end)].

Definition stations_block (v : theme) (tr : value)
  : completion (list element) :=
  ns ← get tr "nearby_stations";
  shown ← non_empty ns;
  and_then shown
    (rows ← map_stations v ns; mret (stations_section v rows)).

Definition transport_block (v : theme) (result : value)
  : completion (list element) :=
  tr ← get result "transport";
  and_then tr
    (lm ← landmarks_block v tr;
     st ← stations_block v tr;
     mret [Elem Div (lm ++ st)]).

(** ** The report (lines 93-236, 525-687) *)

Definition stamp : element :=
  Elem Div [Image (js "/chez_stamp.png") (VStr (js "Chez-Vous"))].

Definition separator : element := Elem Div [].

Definition reset_button : element :=
  Elem Div [heading Button "Search Another Address"].

Definition report (v : theme) (result : value) : completion (list element) :=
  loc ← location_block v result;
  wom ← word_of_mouth v result;
  rat ← ratings_block result;
  tra ← transport_block v result;
  mret [Elem Div
          match v with
          | Cards => stamp :: loc ++ wom ++ rat ++ tra ++ [reset_button]
          | Icons =>
              stamp :: loc ++ separator :: wom ++ separator :: rat ++
              separator :: tra ++ [reset_button]
          end].

(** [{error && <div>{error}</div>}] (lines 87-91, 519-523). *)
Definition banner (s : session) : list element :=
  if truthy (error s) then [Elem Div [Hole (error s)]] else [Hole (error s)].

(** [{result && (...)}]. *)
Definition report_area (v : theme) (s : session) : completion (list element) :=
  and_then (result s) (report v (result s)).

End Engine.

End Render.
Export Render.


(* ================================================================== *)
(** * Payloads of the service, as its data model types them *)
(* ================================================================== *)

Module Data.

(** A nearby station: [{ name, transport_type, lines?, walk_time_minutes }]. *)
Record station : Type := {
  st_name : jsstring;
  st_type : jsstring;
  st_lines : option (list jsstring);
  st_walk : Z
}.

Definition station_value (s : station) : value :=
  VObj ((js "name", VStr (st_name s)) ::
        (js "transport_type", VStr (st_type s)) ::
        match st_lines s with
        | Some ls => [(js "lines", VArr (List.map VStr ls))]
        | None => []
        end ++
        [(js "walk_time_minutes", VNum (st_walk s))]).

(** A rating: a category name and [{ score }]. *)
Definition rating_value (kn : jsstring * Z) : jsstring * value :=
  (fst kn, VObj [(js "score", VNum (snd kn))]).

(** A landmark travel time: [{ landmark, time }]. *)
Definition landmark_value (lt : jsstring * jsstring) : value :=
  VObj [(js "landmark", VStr (fst lt)); (js "time", VStr (snd lt))].

(** Strings joined by a separator. *)
Fixpoint intercalate (sep : jsstring) (l : list jsstring) : jsstring :=
  match l with
  | [] => []
  | [s] => s
  | s :: rest => s ++ sep ++ intercalate sep rest
  end.

(** A value of the shape [{ error: string }]. *)
Definition error_shaped (v : value) : bool :=
  match v with
  | VObj props =>
      match own (js "error") props with
      | Some (VStr _) => true
      | _ => false
      end
  | _ => false
  end.

(** The message of the service: the [error] field of the body of a
    failed response, when the body is an object and the field is
    truthy. *)
Definition service_message (response : option value) : option value :=
  match response with
  | Some (VObj props) =>
      match own (js "error") props with
      | Some m => if truthy m then Some m else None
      | None => None
      end
  | _ => None
  end.

(** How a station of the data model is expected on the page: its name,
    its transport type followed by the lines joined by ", " when there
    are any, and its walking time. *)
Definition lines_text (s : station) : list element :=
  match st_lines s with
  | Some (l :: ls) =>
      [Elem Span [Lit lines_prefix;
                  Hole (VStr (intercalate (js ", ") (l :: ls)))]]
  | Some [] => [Hole (VBool false)]
  | None => [Hole VUndefined]
  end.

Definition station_row (v : theme) (s : station) : element :=
  let who := Elem Div [Elem P [Hole (VStr (st_name s))];
                       Elem P (Hole (VStr (st_type s)) :: lines_text s)] in
  let walk := Elem Span [Hole (VNum (st_walk s)); Lit (js " min walk")] in
  match v with
  | Cards => Elem Div [Elem Div [who; walk]]
  | Icons => Elem Div [who; walk]
  end.

(** How a rating of the data model is expected on the page. *)
Definition rating_cell (kn : jsstring * Z) : element :=
  Elem Div
    [Elem P [Hole (VStr (replace (js "_") (js " ") (fst kn)))];
     Image (js "/" ++ dec (snd kn) ++ js "_5.png")
           (VStr (dec (snd kn) ++ js " out of 5"))].


End Data.
Export Data.

(* ================================================================== *)
(** * Concrete sessions and payloads *)
(* ================================================================== *)

Module Samples.

(** A page whose input holds a space, a tab, a no-break space and an
    ideographic space. *)
Definition blank_world : world :=
  {| ui := {| address := [32; 9; 160; 12288]%N; loading := false;
              result := VNull; error := VNull |};
     in_flight := 0; posted := []; unhandled := [] |}.

(** A page on which a request has just failed without a response. *)
Definition failed_world : world :=
  run (Themed Icons) [Change (js "x"); Submit; Settle (Rejected None)].

(** A page that displays a report. *)
Definition report_world : world :=
  run (Themed Icons)
      [Change (js "10 Rue de Rivoli"); Submit;
       Settle (Fulfilled (VObj [(js "geo_data",
                                 VObj [(js "arrondissement", VNum 1)])]))].



(** An engine for the samples, none of which consults it. *)
Definition sample_engine : engine :=
  {| numeral_positive := fun _ => false; builtin_text := fun k => k |}.




(** "Panthéon", a landmark that [iconMap] does not list. *)
Definition pantheon : jsstring := js "Panth" ++ [233%N] ++ js "on".

Definition transport_to_pantheon : value :=
  VObj [(js "landmark_travel_times",
         VArr [landmark_value (pantheon, js "12 min")])].

(** The result of the end-to-end scenario: a location, an overview and
    one rating; no word of mouth, no transport. *)
Definition rivoli : value :=
  VObj [(js "geo_data",
         VObj [(js "arrondissement", VNum 1);
               (js "full_address",
                VStr (js "10 Rue de Rivoli, 75001 Paris, France"))]);
        (js "analysis",
         VObj [(js "overview",
                VObj [(js "description", VStr (js "A lively quarter"));
                      (js "three_word_summary",
                       VStr (js "historic chic central"))]);
               (js "ratings",
                VObj [(js "safety", VObj [(js "score", VNum 4)])])])].

End Samples.
Export Samples.

(* ================================================================== *)
(** * The second transport call: [compareAddresses] *)
(* ================================================================== *)

Module Compare.

(** [api.post('/api/compare', { address1, address2 })] (api.js, lines
    24-27). *)
Definition compare_request (address1 address2 : jsstring) : request :=
  {| path := js "/api/compare";
     body := VObj [(js "address1", VStr address1);
                   (js "address2", VStr address2)] |}.

(** [{ error: 'Failed to compare addresses' }] (api.js, line 30). *)
Definition compare_fallback : value :=
  VObj [(js "error", VStr (js "Failed to compare addresses"))].

(** [compareAddresses] (api.js, lines 22-32), once the request has
    settled. *)
Definition compareAddresses (o : settlement) : completion value :=
  match o with
  | Fulfilled data => Return data
  | Rejected response =>
      Throw (Thrown (or_else (response_data response) compare_fallback))
  end.

End Compare.
Export Compare.

(* ================================================================== *)
(** * A whole payload of the data model *)
(* ================================================================== *)

Module Payload.

(** Every field of the result is optional, at every level. *)
Record geo_record : Type := {
  geo_arrondissement : option Z;
  geo_full_address : option jsstring
}.

Record overview_record : Type := {
  ov_description : option jsstring;
  ov_summary : option jsstring
}.

(** [what_locals_say]: one string, or a sequence of paragraphs. *)
Inductive locals : Type :=
| Single (s : jsstring)
| Several (paragraphs : list jsstring).

Record analysis_record : Type := {
  an_overview : option overview_record;
  an_locals : option locals;
  an_ratings : option (list (jsstring * Z))
}.

Record transport_record : Type := {
  tr_connectivity : option Z;
  tr_landmarks : option (list (jsstring * jsstring));
  tr_stations : option (list station)
}.

Record payload : Type := {
  res_geo : option geo_record;
  res_analysis : option analysis_record;
  res_transport : option transport_record
}.

(** An object from its fields, a missing field leaving no property. *)
Fixpoint fields (l : list (string * option value)) : list (jsstring * value) :=
  match l with
  | [] => []
  | (k, Some v) :: rest => (js k, v) :: fields rest
  | (_, None) :: rest => fields rest
  end.

(** The first binding of [k] among the fields that are present. *)
Fixpoint field_of (k : string) (l : list (string * option value))
  : option value :=
  match l with
  | [] => None
  | (k', o) :: rest =>
      if String.eqb k k'
      then match o with Some v => Some v | None => field_of k rest end
      else field_of k rest
  end.

Definition geo_value (g : geo_record) : value :=
  VObj (fields [("arrondissement"%string, VNum <$> geo_arrondissement g);
                ("full_address"%string, VStr <$> geo_full_address g)]).

Definition overview_value (o : overview_record) : value :=
  VObj (fields [("description"%string, VStr <$> ov_description o);
                ("three_word_summary"%string, VStr <$> ov_summary o)]).

Definition locals_value (l : locals) : value :=
  match l with
  | Single s => VStr s
  | Several ps => VArr (List.map VStr ps)
  end.

Definition ratings_value (rs : list (jsstring * Z)) : value :=
  VObj (List.map rating_value rs).

Definition analysis_value (a : analysis_record) : value :=
  VObj (fields [("overview"%string, overview_value <$> an_overview a);
                ("what_locals_say"%string, locals_value <$> an_locals a);
                ("ratings"%string, ratings_value <$> an_ratings a)]).

Definition landmarks_value (l : list (jsstring * jsstring)) : value :=
  VArr (List.map landmark_value l).

Definition stations_value (l : list station) : value :=
  VArr (List.map station_value l).

Definition transport_value (t : transport_record) : value :=
  VObj (fields [("connectivity_score"%string, VNum <$> tr_connectivity t);
                ("landmark_travel_times"%string,
                 landmarks_value <$> tr_landmarks t);
                ("nearby_stations"%string, stations_value <$> tr_stations t)]).

Definition payload_value (r : payload) : value :=
  VObj (fields [("geo_data"%string, geo_value <$> res_geo r);
                ("analysis"%string, analysis_value <$> res_analysis r);
                ("transport"%string, transport_value <$> res_transport r)]).

(** A list of elements mounts: React renders it without an error. *)
Definition mounts (es : list element) : Prop :=
  exists nodes, mount_all es = Return nodes.

(** How a landmark of the data model is expected on the [Icons] page
    and on the [Cards] page. *)
Definition landmark_cell (E : engine) (v : theme) (lt : jsstring * jsstring)
  : element :=
  match v with
  | Cards => Elem Div [Elem Span [Hole (VStr (fst lt))];
                       Elem Span [Hole (VStr (snd lt))]]
  | Icons =>
      Elem Div [Elem P [Hole (VStr (fst lt))];
                Image (js "/landmarks/" ++ icon_text E (fst lt) ++ js ".png")
                      (VStr (fst lt));
                Elem P [Hole (VStr (snd lt))]]
  end.

End Payload.
Export Payload.

(* ================================================================== *)
(** * The report of the [Plain] version (lines 307-374) *)
(* ================================================================== *)

Module PlainPage.

(** The [Plain] report uses two more tags than the themed ones. *)
Inductive ptag : Type := Tag (t : tag) | H1 | H4.

Inductive pelement : Type :=
| PLit (s : jsstring)
| PHole (v : value)
| PElem (t : ptag) (kids : list pelement).

Definition pheading (t : ptag) (s : string) : pelement := PElem t [PLit (js s)].
Arguments pheading t s%_string.

(** The text that React writes for an element: the JSX text and the
    values between braces, rendered as children. *)
Fixpoint ptext (e : pelement) : completion jsstring :=
  match e with
  | PLit s => Return s
  | PHole v => ns ← child v; mret (concat (List.map text_of ns))
  | PElem _ kids => ks ← each ptext kids; mret (concat ks)
  end.

(** [{a && jsx}]. *)
Definition pand_then (a : value) (jsx : completion (list pelement))
  : completion (list pelement) :=
  if truthy a then jsx else Return [PHole a].

(** Lines 311-315. *)
Definition plain_location (result : value) : completion pelement :=
  geo ← get result "geo_data";
  arr ← get_opt geo "arrondissement";
  addr ← get_opt geo "full_address";
  mret (PElem (Tag Div)
          [pheading (Tag H3) "Location";
           PElem (Tag P) [PLit (js "Arrondissement: ");
                        PHole (or_else arr (VStr (js "Unknown")))];
           PElem (Tag P) [PHole addr]]).

(** Lines 328-331. *)
Definition plain_rating (kv : jsstring * value) : completion pelement :=
  let '(key, val) := kv in
  sc ← get val "score";
  mret (PElem (Tag Div)
          [PElem (Tag Span) [PHole (VStr (replace (js "_") (js " ") key));
                           PLit (js ": ")];
           PElem (Tag Span) [PHole sc; PLit (js "/5")]]).

(** Lines 349-352. *)
Definition plain_landmark (landmark : value) : completion pelement :=
  n ← get landmark "landmark";
  t ← get landmark "time";
  mret (PElem (Tag Div) [PElem (Tag Span) [PHole n; PLit (js ":")];
                       PElem (Tag Span) [PHole t]]).

(** Lines 361-364. *)
Definition plain_station (station : value) : completion pelement :=
  n ← get station "name";
  w ← get station "walk_time_minutes";
  mret (PElem (Tag Div)
          [PElem (Tag Span) [PHole n];
           PElem (Tag Span) [PLit (js " - "); PHole w; PLit (js " min walk")]]).

Section PlainEngine.
Variable E : engine.

(** Lines 356-368. *)
Definition plain_stations (tr : value) : completion (list pelement) :=
  ns ← get tr "nearby_stations";
  shown ← non_empty E ns;
  pand_then shown
    match ns with
    | VArr l =>
        rows ← each plain_station (take 5 l);
        mret [PElem (Tag Div) [pheading H4 "Nearby Stations";
                             PElem (Tag Div) rows]]
    | _ => Throw TypeError
    end.

(** Lines 335-370. *)
Definition plain_transport (result : value) : completion (list pelement) :=
  tr ← get result "transport";
  pand_then tr
    (score ← get tr "connectivity_score";
     lt ← get tr "landmark_travel_times";
     grid ← match lt with
            | VUndefined | VNull => Return [PHole VUndefined]
            | VArr l => each plain_landmark l
            | _ => Throw TypeError
            end;
     st ← plain_stations tr;
     mret [PElem (Tag Div)
             (pheading (Tag H3) "Transport & Connectivity" ::
              PElem (Tag Div)
                [PElem (Tag P)
                   [PElem (Tag Span) [PLit (js "Connectivity Score: ")];
                    PElem (Tag Span) [PHole score; PLit (js "/5")]]] ::
              pheading H4 "Travel Times to Landmarks" ::
              PElem (Tag Div) grid :: st)]).

(** Lines 317-372: overview, ratings and, inside the same block, the
    transport. *)
Definition plain_analysis (result : value) : completion (list pelement) :=
  an ← get result "analysis";
  pand_then an
    (ov ← get an "overview";
     d ← get_opt ov "description";
     t ← get_opt ov "three_word_summary";
     r ← get an "ratings";
     grid ← (if truthy r
             then kvs ← entries r; each plain_rating kvs
             else Return [PHole r]);
     tra ← plain_transport result;
     mret [PElem (Tag Div)
             (pheading (Tag H3) "Overview" ::
              PElem (Tag P) [PHole d] ::
              PElem (Tag P) [PHole t] ::
              pheading (Tag H3) "Ratings" ::
              PElem (Tag Div) grid :: tra)]).

(** Lines 307-374. *)
Definition plain_report (result : value) : completion (list pelement) :=
  loc ← plain_location result;
  an ← plain_analysis result;
  mret [PElem (Tag Div) (pheading (Tag H2) "Analysis Results" :: loc :: an)].

End PlainEngine.

(** How a station of the data model is expected in the [Plain] list. *)
Definition plain_station_row (s : station) : pelement :=
  PElem (Tag Div)
    [PElem (Tag Span) [PHole (VStr (st_name s))];
     PElem (Tag Span) [PLit (js " - "); PHole (VNum (st_walk s));
                     PLit (js " min walk")]].

(** How a rating and a landmark of the data model are expected in the
    [Plain] report. *)
Definition plain_rating_row (kn : jsstring * Z) : pelement :=
  PElem (Tag Div)
    [PElem (Tag Span) [PHole (VStr (replace (js "_") (js " ") (fst kn)));
                       PLit (js ": ")];
     PElem (Tag Span) [PHole (VNum (snd kn)); PLit (js "/5")]].

Definition plain_landmark_row (lt : jsstring * jsstring) : pelement :=
  PElem (Tag Div) [PElem (Tag Span) [PHole (VStr (fst lt)); PLit (js ":")];
                   PElem (Tag Span) [PHole (VStr (snd lt))]].

(** A list of elements of the [Plain] report is written without an
    error. *)
Definition reads (es : list pelement) : Prop :=
  exists texts, each ptext es = Return texts.

End PlainPage.
Export PlainPage.

(* ================================================================== *)
(** * The first version of the page (lines 381-432) *)
(* ================================================================== *)

Module Stub.

(** Two [useState] slots (lines 384-385); the timers armed by
    [setTimeout] and not yet fired; the addresses written to the
    console, latest first. *)
Record stub_world : Type := {
  stub_address : jsstring;
  stub_loading : bool;
  timers : nat;
  console : list jsstring
}.

Definition stub_initial : stub_world :=
  {| stub_address := []; stub_loading := false; timers := 0; console := [] |}.

(** [handleSubmit] (lines 387-395): the guard, [setLoading(true)], the
    log line and the timer. *)
Definition stub_handleSubmit (w : stub_world) : stub_world :=
  if blank (stub_address w) then w
  else {| stub_address := stub_address w; stub_loading := true;
          timers := S (timers w);
          console := stub_address w :: console w |}.

(** The callback of the timer (line 394): [setLoading(false)]. *)
Definition stub_timeout (w : stub_world) : stub_world :=
  {| stub_address := stub_address w; stub_loading := false;
     timers := pred (timers w); console := console w |}.

Inductive stub_event : Type :=
| StubChange (text : jsstring)
| StubSubmit
| StubTimer.

(** The input is [disabled={loading}] (line 411) and the button
    [disabled={loading || !address.trim()}] (line 417); a timer fires
    only if one is armed. *)
Definition stub_dispatch (e : stub_event) (w : stub_world) : stub_world :=
  match e with
  | StubChange text =>
      if stub_loading w then w
      else {| stub_address := text; stub_loading := stub_loading w;
              timers := timers w; console := console w |}
  | StubSubmit =>
      if stub_loading w || blank (stub_address w) then w
      else stub_handleSubmit w
  | StubTimer =>
      match timers w with
      | O => w
      | S _ => stub_timeout w
      end
  end.

Definition stub_run (events : list stub_event) : stub_world :=
  fold_left (fun w e => stub_dispatch e w) events stub_initial.

End Stub.
Export Stub.

(* ================================================================== *)
(** * More concrete sessions and payloads *)
(* ================================================================== *)

Module MoreSamples.

(** A page that waits for the answer to "x". *)
Definition pending_world : world :=
  run (Themed Icons) [Change (js "x"); Submit].

(** A [Plain] page that displays a report and whose input reads "x". *)
Definition plain_report_world : world :=
  run Plain [Change (js "x"); Submit; Settle (Fulfilled (VObj []))].

(** The body of a failed response whose [error] is an object. *)
Definition structured_error : list (jsstring * value) :=
  [(js "error", VObj [(js "code", VNum 500)])].

(** A payload whose analysis holds ratings only. *)
Definition ratings_only : payload :=
  {| res_geo := None;
     res_analysis := Some {| an_overview := None; an_locals := None;
                             an_ratings := Some [(js "safety", 4%Z)] |};
     res_transport := None |}.



End MoreSamples.
Export MoreSamples.


(* ================================================================== *)
(** * Properties of the request controller *)
(* ================================================================== *)

Lemma drop_while_nil_iff {A} (f : A -> bool) (l : list A) :
  drop_while f l = [] <-> forallb f l = true.
Proof.
  induction l as [|x l IH]; simpl; [tauto|].
  destruct (f x); simpl; [exact IH|]. split; discriminate.
Qed.

Lemma drop_while_head {A} (f : A -> bool) (l : list A) x rest :
  drop_while f l = x :: rest -> f x = false.
Proof.
  induction l as [|y l IH]; simpl; [discriminate|].
  destruct (f y) eqn:Hy; [exact IH|]. intros [= -> _]. exact Hy.
Qed.

Lemma forallb_rev {A} (f : A -> bool) (l : list A) :
  forallb f (rev l) = forallb f l.
Proof.
  induction l as [|x l IH]; simpl; [reflexivity|].
  rewrite forallb_app, IH. simpl. destruct (f x), (forallb f l); reflexivity.
Qed.

(** [trim] leaves nothing exactly when every code unit is white space. *)
Lemma trim_nil_iff (s : jsstring) :
  trim s = [] <-> forallb is_white_space s = true.
Proof.
  unfold trim. split.
  - intros H. apply (f_equal (@rev N)) in H. rewrite rev_involutive in H.
    simpl in H. apply drop_while_nil_iff in H. rewrite forallb_rev in H.
    destruct (drop_while is_white_space s) as [|x rest] eqn:D.
    + apply drop_while_nil_iff. exact D.
    + apply drop_while_head in D. simpl in H. rewrite D in H. discriminate.
  - intros H. apply drop_while_nil_iff in H. rewrite H. reflexivity.
Qed.

Lemma blank_iff (s : jsstring) :
  blank s = true <-> forallb is_white_space s = true.
Proof.
  rewrite <- trim_nil_iff. unfold blank. simpl.
  destruct (trim s); simpl; split; congruence.
Qed.

(** C5.  Submitting a blank or whitespace-only address does nothing:
    [handleSubmit] returns at its guard, so the four slots keep their
    values (no spinner, no banner, no report appears), no request is
    sent and none is put in flight; the same holds for the submit event
    of every version of the page. *)
Theorem blank_submit_is_noop (v : variant) (w : world) :
  forallb is_white_space (address (ui w)) = true ->
  handleSubmit w = w /\ dispatch v Submit w = w.
Proof.
  intros H. apply blank_iff in H.
  assert (Hs : handleSubmit w = w) by (unfold handleSubmit; rewrite H; reflexivity).
  split; [exact Hs|].
  unfold dispatch.
  destruct (button_enabled v (ui w) && click_submits v (ui w)); [exact Hs|reflexivity].
Qed.

Lemma blank_submit_is_noop_witness :
  forallb is_white_space (address (ui blank_world)) = true /\
  handleSubmit blank_world = blank_world /\
  dispatch (Themed Icons) Submit blank_world = blank_world.
Proof.
  split; [reflexivity|].
  apply (blank_submit_is_noop (Themed Icons) blank_world). reflexivity.
Defined.

(** ** What every reachable page satisfies *)

Lemma get_of_truthy (v : value) (p : string) :
  truthy v = true -> exists m, get v p = Return m.
Proof. destruct v; simpl; try discriminate; eauto. Qed.

Lemma or_else_truthy (a b : value) :
  truthy b = true -> truthy (or_else a b) = true.
Proof. unfold or_else. destruct (truthy a) eqn:E; auto. Qed.

(** What [analyzeAddress] throws is never [null] or [undefined], so
    reading [err.error] in the [catch] clause cannot fail. *)
Lemma thrown_error_returns (response : option value) :
  exists m,
    thrown_error (Thrown (or_else (response_data response) fallback_error))
    = Return m.
Proof. apply get_of_truthy, or_else_truthy. reflexivity. Qed.

Lemma settled_fulfilled (data : value) (s : session) :
  handleSubmit_settled (Fulfilled data) s =
  ({| address := address s; loading := false;
      result := data; error := error s |}, None).
Proof. reflexivity. Qed.

Lemma settled_rejected (response : option value) (s : session) :
  exists m,
    truthy m = true /\
    handleSubmit_settled (Rejected response) s =
    ({| address := address s; loading := false;
        result := result s; error := m |}, None).
Proof.
  destruct (thrown_error_returns response) as [m Hm].
  exists (or_else m (VStr (js "Failed to analyze address"))). split.
  - apply or_else_truthy. reflexivity.
  - unfold handleSubmit_settled, analyzeAddress. rewrite Hm. reflexivity.
Qed.

Lemma consistent_initial : consistent initial.
Proof. split; simpl; auto; discriminate. Qed.

Lemma consistent_handleSubmit (w : world) :
  consistent w -> loading (ui w) = false -> consistent (handleSubmit w).
Proof.
  intros [Hf Hl Ho He Hu] Hload. unfold handleSubmit.
  destruct (blank (address (ui w))); [split; assumption|].
  split; simpl; auto. rewrite Hf, Hload. reflexivity.
Qed.

Lemma submit_needs_idle (v : variant) (s : session) :
  button_enabled v s = true -> loading s = false.
Proof.
  unfold button_enabled, form_shown. destruct v, (loading s); simpl; auto.
  rewrite andb_false_r. auto.
Qed.

Lemma consistent_dispatch (v : variant) (e : event) (w : world) :
  consistent w -> consistent (dispatch v e w).
Proof.
  intros C. destruct e as [text| | |o]; unfold dispatch.
  - destruct (input_enabled v (ui w)); [|exact C].
    destruct C as [Hf Hl Ho He Hu]. split; simpl; auto.
  - destruct (button_enabled v (ui w)) eqn:B; simpl; [|exact C].
    destruct (click_submits v (ui w)); [|exact C].
    apply consistent_handleSubmit; [exact C|]. eapply submit_needs_idle, B.
  - destruct (reset_shown v (ui w)) eqn:R; [|exact C].
    destruct C as [Hf Hl Ho He Hu]. split; simpl; auto.
  - destruct C as [Hf Hl Ho He Hu].
    destruct (in_flight w) as [|n] eqn:F; [split; auto; congruence|].
    destruct (loading (ui w)) eqn:L; [|discriminate].
    destruct (Hl eq_refl) as [Hr Herr].
    destruct o as [data|response].
    + rewrite settled_fulfilled. split; simpl; auto; discriminate.
    + destruct (settled_rejected response (ui w)) as (m & Hm & ->).
      split; simpl; auto; discriminate.
Qed.

Lemma run_snoc (v : variant) (events : list event) (e : event) :
  run v (events ++ [e]) = dispatch v e (run v events).
Proof. unfold run. rewrite fold_left_app. reflexivity. Qed.

Lemma consistent_run (v : variant) (events : list event) :
  consistent (run v events).
Proof.
  induction events as [|e events IH] using rev_ind.
  - apply consistent_initial.
  - rewrite run_snoc. apply consistent_dispatch, IH.
Qed.

(** While [loading] is set, no version of the page delivers a submit
    event to [handleSubmit]: the controls are disabled ([Plain]) or the
    form is replaced by the spinner ([Cards], [Icons]). *)
Lemma submit_refused_while_loading (v : variant) (w : world) :
  loading (ui w) = true -> dispatch v Submit w = w.
Proof.
  intros L. unfold dispatch.
  destruct (button_enabled v (ui w)) eqn:B; [|reflexivity].
  apply submit_needs_idle in B. congruence.
Qed.

(** The guard lives in the view only: called on a page that is already
    loading, [handleSubmit] itself would send again. *)
Lemma handleSubmit_has_no_loading_guard (w : world) :
  blank (address (ui w)) = false ->
  in_flight (handleSubmit w) = S (in_flight w) /\
  posted (handleSubmit w) = analyze_request (address (ui w)) :: posted w.
Proof. intros H. unfold handleSubmit. rewrite H. split; reflexivity. Qed.

(** C1.  At most one request is in flight in every session: a request
    is outstanding exactly while [loading] is set, and in that state a
    further submit, whatever the address, changes nothing -- nothing is
    added to the requests sent. *)
Theorem at_most_one_request_in_flight (v : variant) :
  (forall events : list event,
      (in_flight (run v events) <= 1)%nat /\
      in_flight (run v events) =
        if loading (ui (run v events)) then 1%nat else 0%nat) /\
  (forall (a : jsstring) (r e : value) (n : nat) (sent : list request)
          (escaped : list exn),
      let w := {| ui := {| address := a; loading := true;
                           result := r; error := e |};
                  in_flight := n; posted := sent; unhandled := escaped |} in
      dispatch v Submit w = w /\ posted (dispatch v Submit w) = sent).
Proof.
  split.
  - intros events. destruct (consistent_run v events) as [Hf _ _ _ _].
    split; [|exact Hf]. rewrite Hf.
    destruct (loading (ui (run v events))); lia.
  - intros a r e n sent escaped w.
    assert (H : dispatch v Submit w = w)
      by (apply submit_refused_while_loading; reflexivity).
    split; [exact H|]. rewrite H. reflexivity.
Qed.

(** C10.  The stored result and the stored error are never both
    non-null: a submission that passes the guard clears both before the
    call, a success stores the result and leaves the error alone, a
    failure stores a message and leaves the result alone, reset clears
    both.  So of the banner (under [error &&]) and the report (under
    [result &&]) at least one renders nothing. *)
Theorem result_and_error_exclusive (v : variant) :
  (forall events : list event,
      let s := ui (run v events) in
      (result s = VNull \/ error s = VNull) /\
      truthy (result s) && truthy (error s) = false /\
      forall (E : engine) (t : theme),
        v = Themed t ->
        banner s = [Hole VNull] \/ report_area E t s = Return [Hole VNull]) /\
  (forall w : world,
      handleSubmit w = w \/
      result (ui (handleSubmit w)) = VNull /\
      error (ui (handleSubmit w)) = VNull /\
      posted (handleSubmit w) = analyze_request (address (ui w)) :: posted w) /\
  (forall (data : value) (s : session),
      result (fst (handleSubmit_settled (Fulfilled data) s)) = data /\
      error (fst (handleSubmit_settled (Fulfilled data) s)) = error s) /\
  (forall (response : option value) (s : session),
      result (fst (handleSubmit_settled (Rejected response) s)) = result s /\
      error (fst (handleSubmit_settled (Rejected response) s)) <> VNull) /\
  (forall s : session,
      result (handleReset s) = VNull /\ error (handleReset s) = VNull).
Proof.
  repeat split.
  - destruct (consistent_run v events) as [_ _ Ho _ _]. exact Ho.
  - destruct (consistent_run v events) as [_ _ [-> | ->] _ _]; simpl;
      [reflexivity|apply andb_false_r].
  - intros E t _. destruct (consistent_run v events) as [_ _ [Hr | He] _ _].
    + right. unfold report_area. rewrite Hr. reflexivity.
    + left. unfold banner. rewrite He. reflexivity.
  - intros w. unfold handleSubmit.
    destruct (blank (address (ui w))); [left; reflexivity|right; auto].
  - destruct (settled_rejected response s) as (m & _ & ->). reflexivity.
  - destruct (settled_rejected response s) as (m & Hm & ->). simpl.
    intros ->. discriminate.
Qed.

(** ** Reset *)

Lemma report_means_settled (v : variant) (events : list event) :
  truthy (result (ui (run v events))) = true ->
  loading (ui (run v events)) = false /\ in_flight (run v events) = 0%nat.
Proof.
  intros T. destruct (consistent_run v events) as [Hf Hl _ _ _].
  destruct (loading (ui (run v events))) eqn:L; [|auto].
  destruct (Hl eq_refl) as [Hr _]. rewrite Hr in T. discriminate.
Qed.

(** C9, as the code has it.  Reset discards the held result and error
    and empties the input.  While a report is displayed (Succeeded) it
    returns the page to its first state, Idle, and no other event
    changes anything.  While no report is displayed -- in particular
    after a failure -- the reset button is not rendered and a reset
    click reaches nothing; the form is on the page instead, unless a
    request is loading. *)
Theorem reset_returns_to_idle (t : theme) (events : list event) :
  let w := run (Themed t) events in
  (forall s : session,
      address (handleReset s) = [] /\
      result (handleReset s) = VNull /\ error (handleReset s) = VNull) /\
  if truthy (result (ui w))
  then reset_shown (Themed t) (ui w) = true /\
       handleReset (ui w) = initial_session /\
       ui (dispatch (Themed t) Reset w) = initial_session /\
       phase initial_session = Idle /\
       forall e : event, e <> Reset -> dispatch (Themed t) e w = w
  else reset_shown (Themed t) (ui w) = false /\
       dispatch (Themed t) Reset w = w /\
       form_shown (Themed t) (ui w) = negb (loading (ui w)).
Proof.
  intros w. split; [intros s; repeat split|].
  destruct (truthy (result (ui w))) eqn:T.
  - destruct (report_means_settled (Themed t) events T) as [L F].
    fold w in L, F.
    assert (R : handleReset (ui w) = initial_session)
      by (unfold handleReset; rewrite L; reflexivity).
    split; [exact T|]. split; [exact R|].
    split; [unfold dispatch, reset_shown; rewrite T; exact R|].
    split; [reflexivity|].
    intros e Hne. destruct e as [text| | |o]; unfold dispatch.
    + unfold input_enabled, form_shown. rewrite T. reflexivity.
    + unfold button_enabled, form_shown. rewrite T. reflexivity.
    + congruence.
    + rewrite F. reflexivity.
  - split; [exact T|]. split.
    + unfold dispatch, reset_shown. rewrite T. reflexivity.
    + unfold form_shown. rewrite T. reflexivity.
Qed.

(** The claim as it was written fails after a failure: the page shows
    the banner and the form, a reset click changes nothing because the
    button is not there, and a submit leaves the Failed state. *)
Lemma failed_state_is_left_by_submit :
  phase (ui failed_world) = Failed (VStr (js "Failed to analyze address")) /\
  dispatch (Themed Icons) Reset failed_world = failed_world /\
  phase (ui (dispatch (Themed Icons) Submit failed_world)) = Pending (js "x").
Proof. repeat split. Qed.

(** A report is reachable, and reset leaves it. *)
Example report_then_reset :
  truthy (result (ui report_world)) = true /\
  ui (dispatch (Themed Icons) Reset report_world) = initial_session.
Proof. split; reflexivity. Qed.

(** ** Failure of the call *)

Lemma own_error_fallback :
  own (js "error") [(js "error", VStr (js "Failed to analyze address"))]
  = Some (VStr (js "Failed to analyze address")).
Proof. reflexivity. Qed.

Lemma settled_rejected_message (response : option value) (s : session) :
  handleSubmit_settled (Rejected response) s =
  ({| address := address s; loading := false; result := result s;
      error := default (VStr (js "Failed to analyze address"))
                       (service_message response) |}, None).
Proof.
  unfold handleSubmit_settled, analyzeAddress, thrown_error, or_else.
  destruct response as [body|]; [|reflexivity].
  destruct body as [| |[|]|n|[|c s']|l|props]; try reflexivity.
  - simpl. destruct (n =? 0)%Z; reflexivity.
  - simpl. destruct (own (js "error") props) as [m|]; [|reflexivity].
    simpl. destruct (truthy m); reflexivity.
Qed.

Lemma service_message_truthy (response : option value) :
  truthy (default (VStr (js "Failed to analyze address"))
                  (service_message response)) = true.
Proof.
  destruct response as [[| | | | | |props]|]; try reflexivity.
  simpl. destruct (own (js "error") props) as [m|]; [|reflexivity].
  destruct (truthy m) eqn:T; [exact T|reflexivity].
Qed.

(** C2, as the code has it.  When the call fails -- with a response of
    another status, or with none (network failure, timeout) -- the
    page goes to Failed with the [error] field of the response body when
    the body is an object and the field is truthy, and with the exact
    text "Failed to analyze address" otherwise.  [analyzeAddress]
    throws the body itself when it is truthy and
    [{ error: 'Failed to analyze address' }] otherwise: what it throws
    has the shape [{ error: string }] when the body is missing, falsy or
    of that shape already.  No rejection escapes [handleSubmit]. *)
Theorem failed_call_message (response : option value) (s : session) :
  let message := default (VStr (js "Failed to analyze address"))
                         (service_message response) in
  let thrown := if truthy (response_data response)
                then response_data response else fallback_error in
  analyzeAddress (Rejected response) = Throw (Thrown thrown) /\
  (truthy (response_data response) = false \/
   error_shaped (response_data response) = true ->
   error_shaped thrown = true) /\
  handleSubmit_settled (Rejected response) s =
    ({| address := address s; loading := false;
        result := result s; error := message |}, None) /\
  (forall (v : variant) (events : list event),
      if loading (ui (run v events))
      then phase (ui (dispatch v (Settle (Rejected response)) (run v events)))
           = Failed message
      else True) /\
  forall (v : variant) (events : list event), unhandled (run v events) = [].
Proof.
  intros message thrown. split; [reflexivity|]. split; [|split; [|split]].
  - subst thrown. intros [F | S'].
    + rewrite F. reflexivity.
    + destruct (truthy (response_data response)); [exact S'|reflexivity].
  - apply settled_rejected_message.
  - intros v events. destruct (consistent_run v events) as [Hf Hl _ _ _].
    destruct (loading (ui (run v events))) eqn:L; [|exact I].
    destruct (Hl eq_refl) as [Hr _]. unfold dispatch. rewrite Hf.
    rewrite settled_rejected_message. simpl ui. unfold phase. simpl.
    rewrite Hr. subst message. simpl truthy.
    rewrite service_message_truthy. reflexivity.
  - intros v events. apply (nothing_escaped _ (consistent_run v events)).
Qed.

(** The claim as it was written fails on the normalisation: a 502 whose
    body is plain text is thrown as that text, which is not of the
    shape [{ error: string }]; the page still shows the fallback
    message. *)
Lemma failure_body_is_not_normalised :
  analyzeAddress (Rejected (Some (VStr (js "Bad Gateway"))))
  = Throw (Thrown (VStr (js "Bad Gateway"))) /\
  error_shaped (VStr (js "Bad Gateway")) = false /\
  error (fst (handleSubmit_settled
                (Rejected (Some (VStr (js "Bad Gateway")))) initial_session))
  = VStr (js "Failed to analyze address").
Proof. repeat split. Qed.

(* ================================================================== *)
(** * Properties of the report renderer *)
(* ================================================================== *)

Lemma each_return {A B} (f : A -> completion B) (g : A -> B) (l : list A) :
  (forall x, In x l -> f x = Return (g x)) ->
  each f l = Return (List.map g l).
Proof.
  induction l as [|x l IH]; intros H; simpl; [reflexivity|].
  rewrite (H x) by (left; reflexivity). unfold_completion.
  rewrite IH by (intros y Hy; apply H; right; exact Hy). reflexivity.
Qed.

Lemma each_map {A B C} (f : B -> completion C) (g : A -> B) (l : list A) :
  each f (List.map g l) = each (fun x => f (g x)) l.
Proof.
  induction l as [|x l IH]; simpl; [reflexivity|]. rewrite IH. reflexivity.
Qed.


Lemma each_length {A B} (f : A -> completion B) (l : list A) (r : list B) :
  each f l = Return r -> length r = length l.
Proof.
  revert r. induction l as [|x l IH]; intros r; simpl.
  - intros [= <-]. reflexivity.
  - unfold_completion. destruct (f x); [|discriminate].
    destruct (each f l) as [ys|]; [|discriminate].
    intros [= <-]. simpl. rewrite (IH ys eq_refl). reflexivity.
Qed.

Lemma own_here (k : jsstring) (v : value) rest :
  own k ((k, v) :: rest) = Some v.
Proof. simpl. destruct (decide (k = k)); [reflexivity|congruence]. Qed.

Lemma own_skip (k k' : jsstring) (v : value) rest :
  k <> k' -> own k ((k', v) :: rest) = own k rest.
Proof. intros H. simpl. destruct (decide (k = k')); [congruence|reflexivity]. Qed.

(** ** Ratings *)

Lemma rating_entry_typed (kn : jsstring * Z) :
  rating_entry (rating_value kn) = Return (rating_cell kn).
Proof.
  destruct kn as [k n]. unfold rating_entry, rating_value, rating_cell, get.
  simpl fst. simpl snd. rewrite own_here. reflexivity.
Qed.





(** ** Location *)








(** ** Word of mouth *)





(** ** Nearby stations *)

Ltac distinct_keys :=
  let H := fresh in intros H; vm_compute in H; discriminate H.

Lemma join_strings (sep : jsstring) (ls : list jsstring) :
  join sep (List.map VStr ls) = Return (intercalate sep ls).
Proof.
  unfold join. induction ls as [|s rest IH]; [reflexivity|].
  destruct rest as [|r rest]; [reflexivity|].
  change (join_with to_string sep (List.map VStr (s :: r :: rest)))
    with (sx ← join_elem to_string (VStr s);
          sr ← join_with to_string sep (List.map VStr (r :: rest));
          mret (sx ++ sep ++ sr)).
  rewrite IH. reflexivity.
Qed.

Lemma station_lines (s : station) :
  get (station_value s) "lines" =
  Return match st_lines s with
         | Some ls => VArr (List.map VStr ls)
         | None => VUndefined
         end.
Proof.
  unfold station_value, get.
  rewrite own_skip by distinct_keys. rewrite own_skip by distinct_keys.
  destruct (st_lines s) as [ls|]; simpl app.
  - rewrite own_here. reflexivity.
  - rewrite own_skip by distinct_keys. reflexivity.
Qed.

Lemma station_walk (s : station) :
  get (station_value s) "walk_time_minutes" = Return (VNum (st_walk s)).
Proof.
  unfold station_value, get.
  rewrite own_skip by distinct_keys. rewrite own_skip by distinct_keys.
  destruct (st_lines s) as [ls|]; simpl app.
  - rewrite own_skip by distinct_keys. rewrite own_here. reflexivity.
  - rewrite own_here. reflexivity.
Qed.

Lemma non_empty_array (E : engine) (l : list value) :
  non_empty E (VArr l) =
  Return (VBool match l with [] => false | _ :: _ => true end).
Proof. destruct l; reflexivity. Qed.

Lemma lines_label_typed (E : engine) (s : station) :
  lines_label E (station_value s) = Return (lines_text s).
Proof.
  unfold lines_label, lines_text. rewrite station_lines. unfold_completion.
  destruct (st_lines s) as [[|l ls]|]; try reflexivity.
  rewrite non_empty_array. unfold and_then. simpl truthy. cbv iota.
  change (VStr l :: List.map VStr ls) with (List.map VStr (l :: ls)).
  rewrite join_strings. reflexivity.
Qed.

Lemma station_entry_typed (E : engine) (v : theme) (s : station) :
  station_entry E v (station_value s) = Return (station_row v s).
Proof.
  unfold station_entry, station_row.
  rewrite lines_label_typed, station_walk.
  unfold station_value, get. rewrite own_here.
  rewrite own_skip by distinct_keys. rewrite own_here.
  destruct v; reflexivity.
Qed.

Lemma mount_lines_text (s : station) :
  mount_all (lines_text s) =
  Return match st_lines s with
         | Some (l :: ls) =>
             [El Span (Text lines_prefix ::
                       as_text (intercalate (js ", ") (l :: ls)))]
         | Some [] | None => []
         end.
Proof.
  unfold lines_text. destruct (st_lines s) as [[|l ls]|]; try reflexivity.
  unfold mount_all. simpl. unfold_completion. simpl.
  rewrite !app_nil_r. reflexivity.
Qed.

(** Without stations there is no section: an empty sequence and a
    missing one render nothing. *)
Lemma stations_block_absent (E : engine) (v : theme) (tr ns : value) :
  get tr "nearby_stations" = Return ns ->
  ns = VArr [] \/ ns = VUndefined ->
  exists hole, stations_block E v tr = Return [Hole hole] /\
               mount (Hole hole) = Return [].
Proof.
  intros G [-> | ->]; unfold stations_block; rewrite G;
    [exists (VBool false)|exists VUndefined]; split; reflexivity.
Qed.



(** ** Landmarks *)

(** [iconMap] knows exactly six landmarks. *)
Lemma iconMap_six_names :
  size iconMap = 6%nat /\
  icon_text sample_engine (js "Notre-Dame") = js "notre" /\
  icon_text sample_engine (js "Eiffel Tower") = js "eiffel" /\
  icon_text sample_engine (js "Arc de Triomphe") = js "arc" /\
  icon_text sample_engine (js "Louvre") = js "louvre" /\
  icon_text sample_engine (js "Sacr" ++ [233%N] ++ js "-C" ++ [339%N] ++ js "ur")
  = js "sacre" /\
  icon_text sample_engine
    (js "Champs-" ++ [201%N] ++ js "lys" ++ [233%N] ++ js "es")
  = js "champs".
Proof. repeat split; vm_compute; reflexivity. Qed.

(** A landmark of the data model always shows its name and its time;
    when [iconMap] does not list the name (and the name is not one that
    objects inherit), the image refers to [/landmarks/undefined.png]. *)
Lemma landmark_entry_unlisted (E : engine) (name time : jsstring) :
  iconMap !! name = None ->
  name ∉ object_prototype_members ->
  landmark_entry E Icons (landmark_value (name, time)) =
  Return (Elem Div [Elem P [Hole (VStr name)];
                    Image (js "/landmarks/undefined.png") (VStr name);
                    Elem P [Hole (VStr time)]]).
Proof.
  intros M O. unfold landmark_entry, landmark_value, get. simpl fst. simpl snd.
  rewrite own_here. rewrite own_skip by distinct_keys. rewrite own_here.
  unfold_completion. cbn [from_option id to_string]. unfold icon_text.
  unfold jsstring in *. rewrite M.
  rewrite bool_decide_eq_false_2 by exact O. reflexivity.
Qed.

(** C8 fails on the code.  For a landmark that [iconMap] does not list,
    the [Icons] page renders the name and the time and also an image,
    whose source is [/landmarks/undefined.png]: the icon is not
    omitted.  And a present but empty sequence still gets its block,
    headings included, unlike the station list beside it. *)
Theorem unlisted_landmark_keeps_its_icon (E : engine) :
  iconMap !! pantheon = None /\
  landmarks_block E Icons transport_to_pantheon
  = Return [Elem Div
              [heading H3 "Travel Times to Landmarks";
               heading P "Public transport from your address";
               Elem Div
                 [Elem Div [Elem P [Hole (VStr pantheon)];
                            Image (js "/landmarks/undefined.png")
                                  (VStr pantheon);
                            Elem P [Hole (VStr (js "12 min"))]]]]] /\
  landmarks_block E Icons (VObj [(js "landmark_travel_times", VArr [])])
  = Return [Elem Div
              [heading H3 "Travel Times to Landmarks";
               heading P "Public transport from your address";
               Elem Div []]].
Proof.
  split; [vm_compute; reflexivity|]. split; [|reflexivity].
  unfold landmarks_block, transport_to_pantheon, get. rewrite own_here.
  unfold_completion. unfold and_then. simpl truthy. cbv iota.
  unfold map_landmarks. cbn [from_option id each]. unfold_completion.
  rewrite landmark_entry_unlisted;
    [reflexivity|vm_compute; reflexivity|].
  apply not_elem_of_cons; split; [distinct_keys|].
  repeat (apply not_elem_of_cons; split; [distinct_keys|]).
  apply not_elem_of_nil.
Qed.

(** ** The whole report *)

(** The end-to-end scenario: the report of [rivoli] mounts without an
    error; it holds the image of the first arrondissement and the image
    of a score of 4, and reads, from top to bottom: the location, the
    overview, the one rating and the reset button.  Word of mouth and
    transport leave no text. *)
Example report_of_rivoli :
  exists top : list node,
    report sample_engine Icons rivoli ≫= mount_all
    = Return [El Div (El Div [Img (js "/chez_stamp.png") (Some (js "Chez-Vous"))]
                      :: top)] /\
    concat (List.map text_of top)
    = js "Arrondissement" ++ js "Full address" ++
      js "10 Rue de Rivoli, 75001 Paris, France" ++
      js "Neighborhood Character" ++ js "A lively quarter" ++
      js "historic chic central" ++ js "safety" ++
      js "Search Another Address".
Proof. eexists. split; reflexivity. Qed.

(* ================================================================== *)
(** * Further properties of the transport calls and of the controller *)
(* ================================================================== *)

(** X1.  [compareAddresses] never throws [null] or [undefined]: what it
    throws is the body of the failed response when that body is truthy
    and [{ error: 'Failed to compare addresses' }] otherwise, so a
    caller can always read its [error] property; a fulfilled call
    returns the body untouched. *)
Theorem compare_failure_is_never_nullish (response : option value) :
  (forall data : value, compareAddresses (Fulfilled data) = Return data) /\
  exists thrown : value,
    compareAddresses (Rejected response) = Throw (Thrown thrown) /\
    truthy thrown = true /\
    (exists m, get thrown "error" = Return m) /\
    thrown = (if truthy (response_data response)
              then response_data response else compare_fallback) /\
    (response = None -> error_shaped thrown = true).
Proof.
  split; [reflexivity|].
  exists (or_else (response_data response) compare_fallback).
  assert (T : truthy (or_else (response_data response) compare_fallback) = true)
    by (apply or_else_truthy; reflexivity).
  split; [reflexivity|]. split; [exact T|].
  split; [apply get_of_truthy, T|]. split; [reflexivity|].
  intros ->. reflexivity.
Qed.

(** ** What is sent *)





(** X3.  When the call is fulfilled, the page stores the body whatever
    it is and stops loading.  A truthy body is displayed as the report;
    a falsy one -- an empty string, [null], [0], [false] -- leaves the
    page as it was before the submission, form and typed address
    included, without banner or report. *)
Theorem fulfilled_call_outcome (v : variant) (events : list event)
        (data : value) :
  loading (ui (run v events)) = true ->
  let w := run v events in
  let w' := dispatch v (Settle (Fulfilled data)) w in
  ui w' = {| address := address (ui w); loading := false;
             result := data; error := VNull |} /\
  in_flight w' = 0%nat /\
  phase (ui w') = (if truthy data then Succeeded data else Idle) /\
  (truthy data = false ->
   form_shown v (ui w') = true /\ banner (ui w') = [Hole VNull]).
Proof.
  intros L w w'. destruct (consistent_run v events) as [Hf Hl _ _ _].
  fold w in Hf, Hl, L. destruct (Hl L) as [_ He].
  assert (U : w' = {| ui := {| address := address (ui w); loading := false;
                               result := data; error := VNull |};
                      in_flight := 0; posted := posted w;
                      unhandled := unhandled w |}).
  { subst w'. unfold dispatch. rewrite Hf, L, settled_fulfilled, He.
    reflexivity. }
  rewrite U. simpl. split; [reflexivity|]. split; [reflexivity|].
  split.
  - unfold phase. simpl. destruct (truthy data); reflexivity.
  - intros F. split; [|reflexivity].
    unfold form_shown. simpl. rewrite F. destruct v; reflexivity.
Qed.

Lemma fulfilled_call_outcome_witness :
  loading (ui pending_world) = true /\
  phase (ui (dispatch (Themed Icons) (Settle (Fulfilled (VStr []))) pending_world))
  = Idle.
Proof.
  split; [reflexivity|].
  exact (proj1 (proj2 (proj2
           (fulfilled_call_outcome (Themed Icons) [Change (js "x"); Submit]
              (VStr []) eq_refl)))).
Defined.



(** X5.  The [Plain] page keeps its form beside a displayed report, so
    a new submission of a non-blank address replaces the report: the
    result is cleared, the page is loading again and exactly one
    request, for the address in the input, is in flight. *)
Theorem plain_resubmits_over_report (events : list event) :
  truthy (result (ui (run Plain events))) = true ->
  blank (address (ui (run Plain events))) = false ->
  let w := run Plain events in
  let w' := dispatch Plain Submit w in
  phase (ui w') = Pending (address (ui w)) /\
  result (ui w') = VNull /\ error (ui w') = VNull /\
  in_flight w' = 1%nat /\
  posted w' = analyze_request (address (ui w)) :: posted w.
Proof.
  intros T B w w'.
  destruct (report_means_settled Plain events T) as [L F]. fold w in L, F, B.
  subst w'. unfold dispatch, button_enabled, form_shown, click_submits.
  rewrite L, B. simpl. unfold handleSubmit. rewrite B. simpl.
  rewrite F. repeat split.
Qed.

Lemma plain_resubmits_over_report_witness :
  truthy (result (ui plain_report_world)) = true /\
  blank (address (ui plain_report_world)) = false /\
  in_flight (dispatch Plain Submit plain_report_world) = 1%nat.
Proof.
  split; [reflexivity|]. split; [reflexivity|].
  exact (proj1 (proj2 (proj2 (proj2
           (plain_resubmits_over_report
              [Change (js "x"); Submit; Settle (Fulfilled (VObj []))]
              eq_refl eq_refl))))).
Defined.

(** X6.  After a reset the input is empty, so a submit right after it
    does nothing; once the user has typed a non-blank address, the
    submit sends exactly that address. *)
Theorem reset_then_submit (t : theme) (events : list event)
        (text : jsstring) :
  truthy (result (ui (run (Themed t) events))) = true ->
  let w := run (Themed t) events in
  let r := dispatch (Themed t) Reset w in
  dispatch (Themed t) Submit r = r /\
  (blank text = false ->
   let w' := dispatch (Themed t) Submit (dispatch (Themed t) (Change text) r) in
   posted w' = analyze_request text :: posted w /\
   phase (ui w') = Pending text).
Proof.
  intros T w r.
  destruct (report_means_settled (Themed t) events T) as [L F].
  fold w in L, F, T.
  assert (R : r = {| ui := initial_session; in_flight := in_flight w;
                     posted := posted w; unhandled := unhandled w |}).
  { subst r. unfold dispatch, reset_shown. rewrite T.
    unfold with_ui, handleReset. rewrite L. reflexivity. }
  rewrite R. split; [reflexivity|].
  intros B. unfold dispatch at 2. simpl.
  unfold dispatch, button_enabled, click_submits, form_shown. simpl.
  rewrite B. simpl. unfold handleSubmit. simpl. rewrite B. split; reflexivity.
Qed.

Lemma reset_then_submit_witness :
  truthy (result (ui report_world)) = true /\
  dispatch (Themed Icons) Submit (dispatch (Themed Icons) Reset report_world)
  = dispatch (Themed Icons) Reset report_world.
Proof.
  split; [reflexivity|].
  exact (proj1 (reset_then_submit Icons
           [Change (js "10 Rue de Rivoli"); Submit;
            Settle (Fulfilled (VObj [(js "geo_data",
                                      VObj [(js "arrondissement", VNum 1)])]))]
           [] eq_refl)).
Defined.

(** X7.  The [error] field of a failed response is stored as it is,
    without a check that it is text: when it is an object, the page
    goes to Failed with that object as its message, and the banner,
    which places the message as a child, cannot be rendered. *)
Theorem object_error_breaks_banner (props inner : list (jsstring * value))
        (s : session) :
  own (js "error") props = Some (VObj inner) ->
  let s' := fst (handleSubmit_settled (Rejected (Some (VObj props))) s) in
  error s' = VObj inner /\
  mount_all (banner s') = Throw InvalidChild.
Proof.
  intros O s'. subst s'. rewrite settled_rejected_message. simpl.
  rewrite O. simpl. split; reflexivity.
Qed.

Lemma object_error_breaks_banner_witness :
  own (js "error") structured_error = Some (VObj [(js "code", VNum 500)]) /\
  mount_all (banner (fst (handleSubmit_settled
                            (Rejected (Some (VObj structured_error)))
                            initial_session)))
  = Throw InvalidChild.
Proof.
  split; [reflexivity|].
  exact (proj2 (object_error_breaks_banner structured_error
                  [(js "code", VNum 500)] initial_session eq_refl)).
Defined.

(* ================================================================== *)
(** * Further properties of the renderer *)
(* ================================================================== *)

(** ** Objects built from optional fields *)

Lemma js_injective (a b : string) : js a = js b -> a = b.
Proof.
  unfold js. intros H.
  rewrite <- (string_of_list_ascii_of_string a),
          <- (string_of_list_ascii_of_string b).
  f_equal. revert H.
  generalize (list_ascii_of_string a) (list_ascii_of_string b).
  induction l as [|x l IH]; intros [|y l']; simpl; try discriminate;
    [reflexivity|].
  intros [= H1 H2]. f_equal; [|apply IH, H2].
  rewrite <- (ascii_N_embedding x), <- (ascii_N_embedding y), H1. reflexivity.
Qed.

Lemma own_fields (k : string) (l : list (string * option value)) :
  own (js k) (fields l) = field_of k l.
Proof.
  induction l as [|[k' [v|]] l IH]; simpl; [reflexivity| |].
  - destruct (decide (js k = js k')) as [e|n], (String.eqb_spec k k') as [e'|n'];
      try reflexivity; try exact IH.
    + apply js_injective in e. contradiction.
    + subst. contradiction.
  - rewrite IH. destruct (String.eqb k k'); reflexivity.
Qed.

Lemma get_fields (k : string) (l : list (string * option value)) :
  get (VObj (fields l)) k = Return (default VUndefined (field_of k l)).
Proof. unfold get. rewrite own_fields. reflexivity. Qed.

(** ** Lists that mount *)

Lemma mounts_nil : mounts [].
Proof. exists []. reflexivity. Qed.

Lemma mounts_cons (e : element) (es : list element) :
  mounts [e] -> mounts es -> mounts (e :: es).
Proof.
  unfold mounts, mount_all. simpl. unfold_completion.
  intros [n1 H1] [n2 H2].
  destruct (mount e) as [ns|]; [|discriminate].
  destruct (each mount es) as [ks|]; [|discriminate]. eauto.
Qed.

Lemma mounts_app (a b : list element) : mounts a -> mounts b -> mounts (a ++ b).
Proof.
  intros Ha Hb. induction a as [|e a IH]; [exact Hb|].
  simpl. destruct Ha as [n Hn]. unfold mount_all in Hn. simpl in Hn.
  unfold_completion.
  destruct (mount e) as [ns|] eqn:M; [|discriminate].
  destruct (each mount a) as [ks|] eqn:K; [|discriminate].
  apply mounts_cons.
  - exists (ns ++ []). unfold mount_all. simpl. unfold_completion.
    rewrite M. reflexivity.
  - apply IH. exists (concat ks). unfold mount_all. unfold_completion.
    rewrite K. reflexivity.
Qed.

Lemma mounts_elem (t : tag) (kids : list element) :
  mounts kids -> mounts [Elem t kids].
Proof.
  unfold mounts, mount_all. simpl. unfold_completion. intros [n H].
  destruct (each mount kids) as [ks|]; [|discriminate]. eauto.
Qed.

Lemma mounts_lit (s : jsstring) : mounts [Lit s].
Proof. exists [Text s]. reflexivity. Qed.

Lemma mounts_heading (t : tag) (s : string) : mounts [heading t s].
Proof. apply mounts_elem, mounts_lit. Qed.

Lemma mounts_text (s : jsstring) : mounts [Hole (VStr s)].
Proof.
  exists (as_text s). unfold mount_all. simpl. unfold_completion.
  rewrite app_nil_r. reflexivity.
Qed.

Lemma mounts_number (n : Z) : mounts [Hole (VNum n)].
Proof. exists [Text (dec n)]. reflexivity. Qed.

Lemma mounts_falsy (a : value) : truthy a = false -> mounts [Hole a].
Proof.
  destruct a as [| |b|n|s|l|props]; simpl; try discriminate; intros _.
  - exists []. reflexivity.
  - exists []. reflexivity.
  - exists []. reflexivity.
  - apply mounts_number.
  - apply mounts_text.
Qed.

Lemma mounts_optional_text (o : option jsstring) :
  mounts [Hole (default VUndefined (VStr <$> o))].
Proof.
  destruct o; [apply mounts_text|apply mounts_falsy; reflexivity].
Qed.

Lemma mounts_image (src alt : jsstring) : mounts [Image src (VStr alt)].
Proof. exists [Img src (Some alt)]. reflexivity. Qed.

Lemma mounts_map {A} (f : A -> element) (l : list A) :
  (forall x, mounts [f x]) -> mounts (List.map f l).
Proof.
  intros H. induction l as [|x l IH]; [apply mounts_nil|].
  simpl. apply mounts_cons; [apply H|exact IH].
Qed.

Lemma and_then_mounts (a : value) (jsx : completion (list element)) :
  (truthy a = true -> exists es, jsx = Return es /\ mounts es) ->
  exists es, and_then a jsx = Return es /\ mounts es.
Proof.
  intros H. unfold and_then. destruct (truthy a) eqn:T; [auto|].
  eexists. split; [reflexivity|]. apply mounts_falsy, T.
Qed.

Create HintDb mounting.
#[local] Hint Resolve mounts_nil mounts_cons mounts_app mounts_elem mounts_lit
  mounts_heading mounts_text mounts_number mounts_optional_text mounts_image
  : mounting.

(** ** The blocks on a payload of the data model *)

Lemma get_opt_fields (k : string) (l : list (string * option value)) :
  get_opt (VObj (fields l)) k = Return (default VUndefined (field_of k l)).
Proof. apply get_fields. Qed.

Ltac reduce_options :=
  cbn [field_of String.eqb Ascii.eqb Bool.eqb from_option id fmap
       option_fmap option_map].

Lemma option_eta {A} (o : option A) :
  match o with Some v => Some v | None => None end = o.
Proof. destruct o; reflexivity. Qed.

Ltac read_fields :=
  unfold payload_value, geo_value, overview_value, analysis_value,
    transport_value;
  repeat (first [rewrite get_fields | rewrite get_opt_fields]; reduce_options);
  rewrite ?option_eta.

Ltac returns_and_mounts :=
  reduce_options; eexists; split; [reflexivity|]; auto 30 with mounting.

Lemma payload_geo (r : payload) :
  get (payload_value r) "geo_data"
  = Return (default VUndefined (geo_value <$> res_geo r)).
Proof. read_fields. destruct (res_geo r); reflexivity. Qed.

Lemma payload_analysis (r : payload) :
  get (payload_value r) "analysis"
  = Return (default VUndefined (analysis_value <$> res_analysis r)).
Proof. read_fields. destruct (res_analysis r); reflexivity. Qed.

Lemma payload_transport (r : payload) :
  get (payload_value r) "transport"
  = Return (default VUndefined (transport_value <$> res_transport r)).
Proof. read_fields. destruct (res_transport r); reflexivity. Qed.

Lemma asset_of_payload (r : payload) :
  exists es, arrondissement_asset (payload_value r) = Return es /\ mounts es.
Proof.
  unfold arrondissement_asset. rewrite payload_geo. unfold_completion.
  destruct (res_geo r) as [g|]; reduce_options.
  - read_fields. destruct (geo_arrondissement g) as [n|]; reduce_options.
    + apply and_then_mounts. intros _. cbn [to_string]. returns_and_mounts.
    + returns_and_mounts.
  - returns_and_mounts.
Qed.

Lemma address_of_payload (r : payload) :
  exists e, full_address_text (payload_value r) = Return e /\ mounts [e].
Proof.
  unfold full_address_text. rewrite payload_geo. unfold_completion.
  destruct (res_geo r) as [g|]; reduce_options.
  - read_fields. destruct (geo_full_address g); returns_and_mounts.
  - returns_and_mounts.
Qed.

Lemma overview_of_payload (v : theme) (r : payload) :
  exists es, overview_block v (payload_value r) = Return es /\ mounts es.
Proof.
  unfold overview_block. rewrite payload_analysis. unfold_completion.
  destruct (res_analysis r) as [a|]; reduce_options; [|returns_and_mounts].
  apply and_then_mounts. intros _. read_fields.
  destruct (an_overview a) as [o|]; reduce_options.
  - read_fields.
    destruct (ov_description o), (ov_summary o), v; returns_and_mounts.
  - destruct v; returns_and_mounts.
Qed.

Lemma location_of_payload (v : theme) (r : payload) :
  exists es, location_block v (payload_value r) = Return es /\ mounts es.
Proof.
  unfold location_block.
  destruct (asset_of_payload r) as (asset & -> & Ma).
  destruct (address_of_payload r) as (addr & -> & Md).
  destruct (overview_of_payload v r) as (ov & -> & Mo).
  unfold_completion. destruct v; returns_and_mounts.
Qed.

Lemma paragraphs_mount (l : locals) : mounts (paragraphs (locals_value l)).
Proof.
  destruct l as [s|ps]; simpl; [auto with mounting|].
  rewrite List.map_map. apply mounts_map. intros p. auto with mounting.
Qed.

Lemma words_of_payload (v : theme) (r : payload) :
  exists es, word_of_mouth v (payload_value r) = Return es /\ mounts es.
Proof.
  unfold word_of_mouth. rewrite payload_analysis. unfold_completion.
  destruct (res_analysis r) as [a|]; reduce_options;
    [|destruct v; returns_and_mounts].
  unfold and_then at 1. unfold analysis_value at 1. cbn [truthy].
  read_fields.
  destruct (an_locals a) as [l|]; reduce_options;
    [|destruct v; returns_and_mounts].
  unfold and_then. destruct (truthy (locals_value l)) eqn:T.
  - pose proof (paragraphs_mount l).
    unfold word_of_mouth_section. destruct v; returns_and_mounts.
  - pose proof (mounts_falsy _ T). destruct v; returns_and_mounts.
Qed.

Lemma rating_entries_typed (rs : list (jsstring * Z)) :
  rating_entries (ratings_value rs) = Return (List.map rating_cell rs).
Proof.
  unfold rating_entries, ratings_value, and_then. simpl. unfold_completion.
  rewrite each_map. apply each_return. intros kn _. apply rating_entry_typed.
Qed.

Lemma rating_cells_mount (rs : list (jsstring * Z)) :
  mounts (List.map rating_cell rs).
Proof.
  apply mounts_map. intros kn. unfold rating_cell. auto 30 with mounting.
Qed.

Lemma ratings_of_payload (r : payload) :
  exists es, ratings_block (payload_value r) = Return es /\ mounts es.
Proof.
  unfold ratings_block. rewrite payload_analysis. unfold_completion.
  destruct (res_analysis r) as [a|]; reduce_options; [|returns_and_mounts].
  apply and_then_mounts. intros _. read_fields.
  destruct (an_ratings a) as [rs|]; reduce_options.
  - rewrite rating_entries_typed. pose proof (rating_cells_mount rs).
    returns_and_mounts.
  - returns_and_mounts.
Qed.

Lemma landmark_entry_typed (E : engine) (v : theme) (lt : jsstring * jsstring) :
  landmark_entry E v (landmark_value lt) = Return (landmark_cell E v lt).
Proof.
  destruct lt as [n t].
  unfold landmark_entry, landmark_cell, landmark_value, get.
  cbn [fst snd]. rewrite own_here. rewrite own_skip by distinct_keys.
  rewrite own_here. destruct v; reflexivity.
Qed.

Lemma landmarks_typed (E : engine) (v : theme) (l : list (jsstring * jsstring)) :
  map_landmarks E v (landmarks_value l)
  = Return (List.map (landmark_cell E v) l).
Proof.
  unfold map_landmarks, landmarks_value. rewrite each_map.
  apply each_return. intros lt _. apply landmark_entry_typed.
Qed.

Lemma landmark_cells_mount (E : engine) (v : theme)
      (l : list (jsstring * jsstring)) :
  mounts (List.map (landmark_cell E v) l).
Proof.
  apply mounts_map. intros lt. unfold landmark_cell.
  destruct v; auto 30 with mounting.
Qed.

Lemma station_rows_mount (v : theme) (l : list station) :
  mounts (List.map (station_row v) l).
Proof.
  apply mounts_map. intros s. unfold station_row.
  assert (L : mounts (lines_text s))
    by (eexists; apply mount_lines_text).
  destruct v; auto 30 with mounting.
Qed.

Lemma stations_typed (E : engine) (v : theme) (l : list station) :
  map_stations E v (stations_value l)
  = Return (List.map (station_row v) (take 5 l)).
Proof.
  unfold map_stations, stations_value. rewrite <- fmap_take, each_map.
  apply each_return. intros s _. apply station_entry_typed.
Qed.

Lemma transport_of_payload (E : engine) (v : theme) (r : payload) :
  exists es, transport_block E v (payload_value r) = Return es /\ mounts es.
Proof.
  unfold transport_block. rewrite payload_transport. unfold_completion.
  destruct (res_transport r) as [t|]; reduce_options; [|returns_and_mounts].
  apply and_then_mounts. intros _.
  assert (L : exists lm, landmarks_block E v (transport_value t) = Return lm
                         /\ mounts lm).
  { unfold landmarks_block. read_fields. unfold_completion.
    destruct (tr_landmarks t) as [l|]; reduce_options.
    - pose proof (landmark_cells_mount E v l).
      destruct v; [rewrite landmarks_typed; returns_and_mounts|].
      apply and_then_mounts. intros _. rewrite landmarks_typed.
      returns_and_mounts.
    - destruct v; returns_and_mounts. }
  assert (S' : exists st, stations_block E v (transport_value t) = Return st
                          /\ mounts st).
  { unfold stations_block. read_fields. unfold_completion.
    destruct (tr_stations t) as [l|]; reduce_options; [|returns_and_mounts].
    unfold stations_value at 1. rewrite non_empty_array.
    apply and_then_mounts. intros _. rewrite stations_typed.
    pose proof (station_rows_mount v (take 5 l)).
    unfold stations_section. destruct v; returns_and_mounts. }
  destruct L as (lm & -> & Ml). destruct S' as (st & -> & Ms).
  returns_and_mounts.
Qed.

(** X8.  The report never throws on a payload of the data model,
    whichever of its optional fields are missing, in either theme: the
    component returns its elements and React mounts them.  Every read
    of a nested field goes through [?.] or stands behind a [&&] guard
    on its parent. *)
Theorem report_renders_every_payload (E : engine) (v : theme) (r : payload) :
  exists (es : list element) (nodes : list node),
    report E v (payload_value r) = Return es /\
    mount_all es = Return nodes.
Proof.
  unfold report.
  destruct (location_of_payload v r) as (loc & -> & Ml).
  destruct (words_of_payload v r) as (wom & -> & Mw).
  destruct (ratings_of_payload r) as (rat & -> & Mr).
  destruct (transport_of_payload E v r) as (tra & -> & Mt).
  unfold_completion.
  assert (M : mounts [Elem Div
                        match v with
                        | Cards => stamp :: loc ++ wom ++ rat ++ tra ++
                                   [reset_button]
                        | Icons => stamp :: loc ++ separator :: wom ++
                                   separator :: rat ++ separator :: tra ++
                                   [reset_button]
                        end]).
  { unfold stamp, separator, reset_button.
    destruct v; auto 40 with mounting. }
  destruct M as [nodes M]. eauto.
Qed.

(** X9.  The overview follows [analysis], not [overview]: whenever the
    payload has an analysis, the heading "Neighborhood Character" and
    the two paragraphs are drawn; the description and the three-word
    summary fill them independently of each other, and a missing
    overview leaves both empty instead of failing. *)
Theorem overview_follows_analysis (v : theme) (r : payload)
        (a : analysis_record) :
  res_analysis r = Some a ->
  let d := default VUndefined (VStr <$> (an_overview a ≫= ov_description)) in
  let t := default VUndefined (VStr <$> (an_overview a ≫= ov_summary)) in
  overview_block v (payload_value r)
  = Return [Elem Div [heading H3 "Neighborhood Character";
                      match v with
                      | Cards => Elem Div [Elem P [Hole d]]
                      | Icons => Elem P [Hole d]
                      end;
                      Elem P [Hole t]]] /\
  mount (Hole d) = Return (as_text (default [] (an_overview a ≫= ov_description))) /\
  mount (Hole t) = Return (as_text (default [] (an_overview a ≫= ov_summary))).
Proof.
  intros A d t. subst d t. split.
  - unfold overview_block. rewrite payload_analysis, A. unfold_completion.
    reduce_options. unfold and_then. unfold analysis_value at 1.
    cbn [truthy]. read_fields.
    destruct (an_overview a) as [o|]; cbn [mbind option_bind]; reduce_options.
    + read_fields. destruct (ov_description o), (ov_summary o); reflexivity.
    + reflexivity.
  - destruct (an_overview a) as [o|]; cbn [mbind option_bind]; [|split; reflexivity].
    destruct (ov_description o), (ov_summary o); split; reflexivity.
Qed.

Lemma overview_follows_analysis_witness :
  res_analysis ratings_only
  = Some {| an_overview := None; an_locals := None;
            an_ratings := Some [(js "safety", 4%Z)] |} /\
  overview_block Icons (payload_value ratings_only)
  = Return [Elem Div [heading H3 "Neighborhood Character";
                      Elem P [Hole VUndefined]; Elem P [Hole VUndefined]]].
Proof.
  split; [reflexivity|].
  exact (proj1 (overview_follows_analysis Icons ratings_only _ eq_refl)).
Defined.

(** X10.  Landmark travel times are rendered one cell per entry, in
    order and without truncation: on the [Icons] page with the name,
    the image that [iconMap] gives for the name and the time, on the
    [Cards] page with the name and the time only.  When the sequence is
    missing, the [Icons] page draws nothing and the [Cards] page still
    draws the heading over an empty grid. *)
Theorem landmarks_are_all_rendered (E : engine) (v : theme)
        (t : transport_record) :
  landmarks_block E v (transport_value t)
  = Return match tr_landmarks t, v with
           | Some l, Cards =>
               [Elem Div [heading H3 "Travel Times to Landmarks";
                          Elem Div (List.map (landmark_cell E Cards) l)]]
           | Some l, Icons =>
               [Elem Div [heading H3 "Travel Times to Landmarks";
                          heading P "Public transport from your address";
                          Elem Div (List.map (landmark_cell E Icons) l)]]
           | None, Cards =>
               [Elem Div [heading H3 "Travel Times to Landmarks";
                          Elem Div [Hole VUndefined]]]
           | None, Icons => [Hole VUndefined]
           end /\
  (forall l, length (List.map (landmark_cell E v) l) = length l) /\
  (forall (name icon : list N),
      iconMap !! name = Some icon -> icon_text E name = icon).
Proof.
  split; [|split].
  - unfold landmarks_block. read_fields. unfold_completion.
    destruct (tr_landmarks t) as [l|]; reduce_options.
    + destruct v; [rewrite landmarks_typed; reflexivity|].
      unfold and_then. unfold landmarks_value at 1. cbn [truthy].
      rewrite landmarks_typed. reflexivity.
    + destruct v; reflexivity.
  - intros l. apply length_map.
  - intros name icon H. unfold icon_text, jsstring in *. rewrite H.
    reflexivity.
Qed.

Lemma each_throw {A B} (f : A -> completion B) (l1 l2 : list A) (x : A)
      (r : list B) (e : exn) :
  each f l1 = Return r -> f x = Throw e -> each f (l1 ++ x :: l2) = Throw e.
Proof.
  revert r. induction l1 as [|y l1 IH]; intros r R X; simpl.
  - rewrite X. reflexivity.
  - simpl in R. unfold_completion. destruct (f y); [|discriminate].
    destruct (each f l1) as [ys|] eqn:Y; [|discriminate].
    rewrite (IH ys eq_refl X). reflexivity.
Qed.

(** X11.  A [null] in the station sequence is read like a station: when
    it stands among the first five, [station.name] throws a TypeError
    and the whole list fails with it; when five stations precede it, it
    is never read and the five rows are rendered. *)
Theorem null_station_fails_within_five (E : engine) (v : theme)
        (before : list station) (after : list value) :
  map_stations E v
    (VArr (List.map station_value before ++ VNull :: after))
  = if (length before <? 5)%nat
    then Throw TypeError
    else Return (List.map (station_row v) (take 5 before)).
Proof.
  unfold map_stations. destruct (length before <? 5)%nat eqn:L.
  - apply Nat.ltb_lt in L.
    assert (T : take 5 (List.map station_value before ++ VNull :: after)
                = List.map station_value before ++
                  VNull :: take (5 - S (length before)) after).
    { rewrite take_app_ge by (rewrite length_map; lia).
      rewrite length_map.
      destruct (5 - length before)%nat as [|k] eqn:K; [lia|].
      simpl. repeat f_equal. lia. }
    rewrite T.
    apply (each_throw _ _ _ _ (List.map (station_row v) before)); [|reflexivity].
    rewrite each_map. apply each_return. intros s _. apply station_entry_typed.
  - apply Nat.ltb_ge in L.
    rewrite take_app_le by (rewrite length_map; lia).
    rewrite <- fmap_take, each_map.
    apply each_return. intros s _. apply station_entry_typed.
Qed.





(** X13.  When the arrondissement is falsy, the guard in front of the
    image yields the value itself: no image is drawn.  A missing
    arrondissement, [null] or an empty string leave nothing under the
    heading; the number 0 is written there as the text "0". *)
Theorem falsy_arrondissement_shows_no_image (result geo a : value) :
  get result "geo_data" = Return geo ->
  get_opt geo "arrondissement" = Return a ->
  truthy a = false ->
  arrondissement_asset result = Return [Hole a] /\
  mount_all [Hole a]
  = Return match a with
           | VNum _ => [Text (js "0")]
           | _ => []
           end.
Proof.
  intros G A F. split.
  - unfold arrondissement_asset, and_then. rewrite G. unfold_completion.
    rewrite A, F. reflexivity.
  - destruct a as [| |b|n|[|c s]|l|props]; simpl in F; try discriminate;
      try reflexivity.
    destruct (n =? 0)%Z eqn:Z0; [|discriminate].
    apply Z.eqb_eq in Z0. subst n. reflexivity.
Qed.

Lemma falsy_arrondissement_shows_no_image_witness :
  truthy (VNum 0) = false /\
  arrondissement_asset
    (VObj [(js "geo_data", VObj [(js "arrondissement", VNum 0)])])
  = Return [Hole (VNum 0)] /\
  mount_all [Hole (VNum 0)] = Return [Text (js "0")].
Proof.
  split; [reflexivity|].
  exact (falsy_arrondissement_shows_no_image
           (VObj [(js "geo_data", VObj [(js "arrondissement", VNum 0)])])
           (VObj [(js "arrondissement", VNum 0)]) (VNum 0)
           eq_refl eq_refl eq_refl).
Defined.

(* ================================================================== *)
(** * Properties of the [Plain] report *)
(* ================================================================== *)

Lemma text_of_as_text (s : jsstring) :
  concat (List.map text_of (as_text s)) = s.
Proof. destruct s; [reflexivity|]. simpl. rewrite app_nil_r. reflexivity. Qed.

Lemma ptext_text (s : jsstring) : ptext (PHole (VStr s)) = Return s.
Proof. simpl. unfold_completion. rewrite text_of_as_text. reflexivity. Qed.

Lemma ptext_number (n : Z) : ptext (PHole (VNum n)) = Return (dec n).
Proof. simpl. unfold_completion. simpl. rewrite app_nil_r. reflexivity. Qed.









Lemma plain_station_typed (s : station) :
  plain_station (station_value s) = Return (plain_station_row s).
Proof.
  unfold plain_station. rewrite station_walk.
  unfold station_value, get. rewrite own_here. reflexivity.
Qed.

Lemma plain_stations_typed (E : engine) (t : transport_record) :
  plain_stations E (transport_value t)
  = Return match tr_stations t with
           | Some (s :: more) =>
               [PElem (Tag Div)
                  [pheading H4 "Nearby Stations";
                   PElem (Tag Div)
                     (List.map plain_station_row (take 5 (s :: more)))]]
           | Some [] => [PHole (VBool false)]
           | None => [PHole VUndefined]
           end.
Proof.
  unfold plain_stations. read_fields. unfold_completion.
  destruct (tr_stations t) as [[|s more]|]; reduce_options; try reflexivity.
  unfold stations_value. rewrite non_empty_array. unfold pand_then.
  cbn [truthy].
  change (List.map station_value (s :: more))
    with (station_value <$> (s :: more)).
  rewrite <- fmap_take.
  change (station_value <$> take 5 (s :: more))
    with (List.map station_value (take 5 (s :: more))).
  rewrite each_map.
  rewrite (each_return _ plain_station_row)
    by (intros; apply plain_station_typed).
  reflexivity.
Qed.





(** ** The [Plain] report on a payload of the data model *)

Lemma reads_nil : reads [].
Proof. exists []. reflexivity. Qed.

Lemma reads_cons (e : pelement) (es : list pelement) :
  reads [e] -> reads es -> reads (e :: es).
Proof.
  unfold reads. simpl. unfold_completion. intros [t1 H1] [t2 H2].
  destruct (ptext e); [|discriminate]. rewrite H2. eauto.
Qed.

Lemma reads_elem (t : ptag) (kids : list pelement) :
  reads kids -> reads [PElem t kids].
Proof.
  intros [ss H]. exists [concat ss]. simpl. unfold_completion.
  rewrite H. reflexivity.
Qed.

Lemma reads_lit (s : jsstring) : reads [PLit s].
Proof. exists [s]. reflexivity. Qed.

Lemma reads_heading (t : ptag) (s : string) : reads [pheading t s].
Proof. apply reads_elem, reads_lit. Qed.

Lemma reads_text (s : jsstring) : reads [PHole (VStr s)].
Proof. exists [s]. cbn [each]. rewrite ptext_text. reflexivity. Qed.

Lemma reads_number (n : Z) : reads [PHole (VNum n)].
Proof. exists [dec n]. cbn [each]. rewrite ptext_number. reflexivity. Qed.

Lemma reads_falsy (a : value) : truthy a = false -> reads [PHole a].
Proof.
  destruct a as [| |b|n|s|l|props]; simpl; try discriminate; intros _;
    try (exists [[]]; reflexivity).
  - apply reads_number.
  - apply reads_text.
Qed.

Lemma reads_undefined : reads [PHole VUndefined].
Proof. exists [[]]. reflexivity. Qed.

Lemma reads_optional_text (o : option jsstring) :
  reads [PHole (default VUndefined (VStr <$> o))].
Proof. destruct o; [apply reads_text|apply reads_falsy; reflexivity]. Qed.

Lemma reads_optional_number (o : option Z) :
  reads [PHole (default VUndefined (VNum <$> o))].
Proof. destruct o; [apply reads_number|apply reads_falsy; reflexivity]. Qed.

Lemma reads_map {A} (f : A -> pelement) (l : list A) :
  (forall x, reads [f x]) -> reads (List.map f l).
Proof.
  intros H. induction l as [|x l IH]; [apply reads_nil|].
  simpl. apply reads_cons; [apply H|exact IH].
Qed.

Create HintDb reading.
#[local] Hint Resolve reads_nil reads_cons reads_elem reads_lit reads_heading
  reads_text reads_number reads_undefined reads_optional_text
  reads_optional_number : reading.

Ltac returns_and_reads :=
  reduce_options; eexists; split; [reflexivity|]; auto 40 with reading.

Lemma plain_rating_typed (kn : jsstring * Z) :
  plain_rating (rating_value kn) = Return (plain_rating_row kn).
Proof.
  destruct kn as [k n]. unfold plain_rating, rating_value, get.
  cbn [fst snd]. rewrite own_here. reflexivity.
Qed.

Lemma plain_landmark_typed (lt : jsstring * jsstring) :
  plain_landmark (landmark_value lt) = Return (plain_landmark_row lt).
Proof.
  destruct lt as [n t]. unfold plain_landmark, landmark_value, get.
  cbn [fst snd]. rewrite own_here. rewrite own_skip by distinct_keys.
  rewrite own_here. reflexivity.
Qed.

Lemma reads_unknown_or (a : value) :
  (truthy a = true -> reads [PHole a]) ->
  reads [PHole (or_else a (VStr (js "Unknown")))].
Proof.
  intros H. unfold or_else. destruct (truthy a); [auto|apply reads_text].
Qed.

Lemma plain_location_of_payload (r : payload) :
  exists loc, plain_location (payload_value r) = Return loc /\ reads [loc].
Proof.
  unfold plain_location. rewrite payload_geo. unfold_completion.
  destruct (res_geo r) as [g|]; reduce_options.
  - read_fields. eexists. split; [reflexivity|].
    assert (U : reads [PHole VUndefined]) by (apply reads_falsy; reflexivity).
    destruct (geo_arrondissement g) as [n|], (geo_full_address g) as [a|];
      reduce_options; unfold or_else; cbn [truthy];
      try destruct (negb (n =? 0)%Z); auto 30 with reading.
  - eexists. split; [reflexivity|].
    assert (reads [PHole VUndefined]) by (apply reads_falsy; reflexivity).
    assert (reads [PHole (or_else VUndefined (VStr (js "Unknown")))])
      by apply reads_text.
    auto 30 with reading.
Qed.

Lemma plain_transport_of_payload (E : engine) (r : payload) :
  exists es, plain_transport E (payload_value r) = Return es /\ reads es.
Proof.
  unfold plain_transport. rewrite payload_transport. unfold_completion.
  destruct (res_transport r) as [t|]; reduce_options; [|returns_and_reads].
  unfold pand_then. unfold transport_value at 1. cbn [truthy].
  rewrite plain_stations_typed. read_fields.
  assert (S' : reads match tr_stations t with
                     | Some (s :: more) =>
                         [PElem (Tag Div)
                            [pheading H4 "Nearby Stations";
                             PElem (Tag Div)
                               (List.map plain_station_row (take 5 (s :: more)))]]
                     | Some [] => [PHole (VBool false)]
                     | None => [PHole VUndefined]
                     end).
  { destruct (tr_stations t) as [[|s more]|];
      [exists [[]]; reflexivity| |exists [[]]; reflexivity].
    assert (reads (List.map plain_station_row (take 5 (s :: more)))).
    { apply reads_map. intros st. unfold plain_station_row.
      auto 30 with reading. }
    auto 30 with reading. }
  pose proof (reads_optional_number (tr_connectivity t)) as C.
  destruct (tr_landmarks t) as [l|]; reduce_options.
  - unfold landmarks_value. rewrite each_map.
    rewrite (each_return _ plain_landmark_row)
      by (intros; apply plain_landmark_typed).
    assert (reads (List.map plain_landmark_row l)).
    { apply reads_map. intros lt. unfold plain_landmark_row.
      auto 30 with reading. }
    returns_and_reads.
  - assert (reads [PHole VUndefined]) by (apply reads_falsy; reflexivity).
    returns_and_reads.
Qed.

(** X17.  The [Plain] report, too, is written without an error for
    every payload of the data model, whichever optional fields are
    missing. *)
Theorem plain_report_reads_every_payload (E : engine) (r : payload) :
  exists (es : list pelement) (texts : list jsstring),
    plain_report E (payload_value r) = Return es /\
    each ptext es = Return texts.
Proof.
  assert (A : exists an, plain_analysis E (payload_value r) = Return an
                         /\ reads an).
  { unfold plain_analysis. rewrite payload_analysis. unfold_completion.
    destruct (res_analysis r) as [a|]; reduce_options; [|returns_and_reads].
    unfold pand_then. unfold analysis_value at 1. cbn [truthy].
    destruct (plain_transport_of_payload E r) as (tra & -> & Rt).
    read_fields.
    pose proof (reads_optional_text (an_overview a ≫= ov_description)) as D.
    pose proof (reads_optional_text (an_overview a ≫= ov_summary)) as S'.
    assert (G : exists grid,
               (if truthy (default VUndefined (ratings_value <$> an_ratings a))
                then match entries (default VUndefined
                                      (ratings_value <$> an_ratings a)) with
                     | Return kvs => each plain_rating kvs
                     | Throw e => Throw e
                     end
                else Return [PHole (default VUndefined
                                      (ratings_value <$> an_ratings a))])
               = Return grid /\ reads grid).
    { destruct (an_ratings a) as [rs|]; reduce_options.
      - unfold ratings_value. cbn [truthy entries]. rewrite each_map.
        rewrite (each_return _ plain_rating_row)
          by (intros; apply plain_rating_typed).
        eexists. split; [reflexivity|]. apply reads_map. intros kn.
        unfold plain_rating_row. auto 30 with reading.
      - cbn [truthy]. returns_and_reads. }
    destruct G as (grid & -> & Rg).
    destruct (an_overview a) as [o|]; cbn [mbind option_bind] in D, S';
      reduce_options.
    - read_fields. returns_and_reads.
    - assert (reads [PHole VUndefined]) by (apply reads_falsy; reflexivity).
      returns_and_reads. }
  destruct A as (an & A & Ra).
  destruct (plain_location_of_payload r) as (loc & L & Rl).
  unfold plain_report. rewrite L, A. unfold_completion.
  assert (R : reads [PElem (Tag Div)
                       (pheading (Tag H2) "Analysis Results" :: loc :: an)])
    by auto 30 with reading.
  destruct R as [texts R]. eauto.
Qed.

(* ================================================================== *)
(** * Properties of the first version of the page *)
(* ================================================================== *)

Lemma stub_run_snoc (events : list stub_event) (e : stub_event) :
  stub_run (events ++ [e]) = stub_dispatch e (stub_run events).
Proof. unfold stub_run. rewrite fold_left_app. reflexivity. Qed.

Lemma stub_invariant (events : list stub_event) :
  timers (stub_run events)
  = (if stub_loading (stub_run events) then 1 else 0)%nat /\
  Forall (fun a => blank a = false) (console (stub_run events)).
Proof.
  induction events as [|e events [IHt IHc]] using rev_ind.
  - split; [reflexivity|constructor].
  - rewrite stub_run_snoc. set (w := stub_run events) in *.
    destruct e as [text| |]; unfold stub_dispatch.
    + destruct (stub_loading w) eqn:L; simpl; rewrite ?L; auto.
    + destruct (stub_loading w) eqn:L; simpl; [rewrite L; auto|].
      unfold stub_handleSubmit.
      destruct (blank (stub_address w)) eqn:B; [rewrite L; auto|].
      simpl. rewrite IHt. auto.
    + destruct (timers w) as [|n] eqn:T; [rewrite T; auto|].
      destruct (stub_loading w); [|discriminate IHt].
      injection IHt as ->. unfold stub_timeout. simpl. rewrite T. auto.
Qed.

(** X18.  The first version of the page only simulates the analysis:
    at most one timer is armed at any time, exactly while the page is
    loading; every address written to the console passed the blank
    guard; and a second submit right after a first changes nothing. *)
Theorem stub_arms_one_timer (events : list stub_event) :
  let w := stub_run events in
  (timers w <= 1)%nat /\
  timers w = (if stub_loading w then 1 else 0)%nat /\
  Forall (fun a => blank a = false) (console w) /\
  stub_dispatch StubSubmit (stub_dispatch StubSubmit w)
  = stub_dispatch StubSubmit w.
Proof.
  intros w. destruct (stub_invariant events) as [Ht Hc]. fold w in Ht, Hc.
  split; [rewrite Ht; destruct (stub_loading w); lia|].
  split; [exact Ht|]. split; [exact Hc|].
  destruct (stub_loading w || blank (stub_address w)) eqn:D.
  - assert (Same : stub_dispatch StubSubmit w = w)
      by (unfold stub_dispatch; rewrite D; reflexivity).
    rewrite Same. exact Same.
  - assert (L : stub_loading (stub_dispatch StubSubmit w) = true).
    { unfold stub_dispatch, stub_handleSubmit. rewrite D.
      apply orb_false_elim in D as [_ B]. rewrite B. reflexivity. }
    revert L. generalize (stub_dispatch StubSubmit w). intros w1 L.
    unfold stub_dispatch. rewrite L. reflexivity.
Qed.
